(** * KitchenScene: point-and-click movement of Hello Kitty

    Shallow embedding of the movement and resize logic of
    [src/scenes/KitchenScene.ts].

    Numbers.  A JavaScript [number] is idealised as a real number: rounding,
    overflow and signed zeros are not modelled.  The one place where the
    scene can leave the finite numbers is the division by the cached
    viewport size in [handleResize]; that division is modelled by [jsDiv],
    which has no result on a zero divisor (in JavaScript the coordinate
    becomes [NaN] there, since [(x / 0) * 0] is [NaN] for every finite [x]).
    [handleResize] itself has no result exactly when such a [NaN] is still
    in the scene at its end: [layout] overwrites the position and the
    shadow when Hello Kitty is at rest and no target is stored.

    Phaser helpers.  [Phaser.Math.Clamp], [Phaser.Math.Distance.Between] and
    [Phaser.Math.Angle.Between] are library functions; they are written out
    here from their definitions in Phaser 3
    ([Math.max(min, Math.min(max, v))], [Math.sqrt(dx*dx + dy*dy)],
    [Math.atan2(y2 - y1, x2 - x1)]).

    State.  The fields of the scene object are the fields of [Scene]; the
    calls to [onReachedStation] and [showDestinationMarker] are recorded in
    the logs [reached] and [markers].  Tweens, tints, labels and text are
    presentation and are left out.

    Beside the movement and the resize, the file covers the click handlers
    of [setupClickControls], the offsets of labels and icons in [layout],
    the loading bar of [PreloadScene] and the resize scheduling of
    [main.ts]. *)

From Stdlib Require Import Reals Lra Lia ZArith List Bool String.
Import ListNotations.

Open Scope R_scope.

(** ** Data *)

Record Point : Type := mkPoint { px : R; py : R }.

(** The four stations created by [createStations]; a value of this type
    stands for the reference to the station object. *)
Inductive StationRef : Type := Armario | Bancada | Forno | Mesa.

Definition stationName (st : StationRef) : string :=
  match st with
  | Armario => "Armário"
  | Bancada => "Bancada"
  | Forno => "Forno"
  | Mesa => "Mesa"
  end.

(** [station.position] of each of the four station objects. *)
Record Stations : Type := mkStations {
  armario : Point;
  bancada : Point;
  forno : Point;
  mesa : Point
}.

Definition stationPosition (st : StationRef) (ss : Stations) : Point :=
  match st with
  | Armario => armario ss
  | Bancada => bancada ss
  | Forno => forno ss
  | Mesa => mesa ss
  end.

Record Scene : Type := mkScene {
  helloKitty : Point;                   (* this.helloKitty.x / .y *)
  flipX : bool;                         (* this.helloKitty.flipX *)
  shadow : option Point;                (* this.helloKitty.getData('shadow') *)
  stations : Stations;
  lastWidth : R;
  lastHeight : R;
  isMoving : bool;
  targetPosition : option Point;
  currentStation : option StationRef;
  cameraWidth : R;                      (* this.cameras.main.width *)
  cameraHeight : R;                     (* this.cameras.main.height *)
  reached : list StationRef;            (* calls of onReachedStation, oldest first *)
  markers : list Point                  (* calls of showDestinationMarker *)
}.

(** Field updates. *)

Definition set_helloKitty (p : Point) (s : Scene) : Scene :=
  mkScene p (flipX s) (shadow s) (stations s) (lastWidth s) (lastHeight s)
    (isMoving s) (targetPosition s) (currentStation s)
    (cameraWidth s) (cameraHeight s) (reached s) (markers s).

Definition set_flipX (b : bool) (s : Scene) : Scene :=
  mkScene (helloKitty s) b (shadow s) (stations s) (lastWidth s) (lastHeight s)
    (isMoving s) (targetPosition s) (currentStation s)
    (cameraWidth s) (cameraHeight s) (reached s) (markers s).

Definition set_shadow (o : option Point) (s : Scene) : Scene :=
  mkScene (helloKitty s) (flipX s) o (stations s) (lastWidth s) (lastHeight s)
    (isMoving s) (targetPosition s) (currentStation s)
    (cameraWidth s) (cameraHeight s) (reached s) (markers s).

Definition set_stations (ss : Stations) (s : Scene) : Scene :=
  mkScene (helloKitty s) (flipX s) (shadow s) ss (lastWidth s) (lastHeight s)
    (isMoving s) (targetPosition s) (currentStation s)
    (cameraWidth s) (cameraHeight s) (reached s) (markers s).

Definition set_lastSize (w h : R) (s : Scene) : Scene :=
  mkScene (helloKitty s) (flipX s) (shadow s) (stations s) w h
    (isMoving s) (targetPosition s) (currentStation s)
    (cameraWidth s) (cameraHeight s) (reached s) (markers s).

Definition set_isMoving (b : bool) (s : Scene) : Scene :=
  mkScene (helloKitty s) (flipX s) (shadow s) (stations s) (lastWidth s)
    (lastHeight s) b (targetPosition s) (currentStation s)
    (cameraWidth s) (cameraHeight s) (reached s) (markers s).

Definition set_targetPosition (o : option Point) (s : Scene) : Scene :=
  mkScene (helloKitty s) (flipX s) (shadow s) (stations s) (lastWidth s)
    (lastHeight s) (isMoving s) o (currentStation s)
    (cameraWidth s) (cameraHeight s) (reached s) (markers s).

Definition set_currentStation (o : option StationRef) (s : Scene) : Scene :=
  mkScene (helloKitty s) (flipX s) (shadow s) (stations s) (lastWidth s)
    (lastHeight s) (isMoving s) (targetPosition s) o
    (cameraWidth s) (cameraHeight s) (reached s) (markers s).

Definition set_camera (w h : R) (s : Scene) : Scene :=
  mkScene (helloKitty s) (flipX s) (shadow s) (stations s) (lastWidth s)
    (lastHeight s) (isMoving s) (targetPosition s) (currentStation s)
    w h (reached s) (markers s).

Definition log_reached (st : StationRef) (s : Scene) : Scene :=
  mkScene (helloKitty s) (flipX s) (shadow s) (stations s) (lastWidth s)
    (lastHeight s) (isMoving s) (targetPosition s) (currentStation s)
    (cameraWidth s) (cameraHeight s) (reached s ++ [st]) (markers s).

Definition log_marker (p : Point) (s : Scene) : Scene :=
  mkScene (helloKitty s) (flipX s) (shadow s) (stations s) (lastWidth s)
    (lastHeight s) (isMoving s) (targetPosition s) (currentStation s)
    (cameraWidth s) (cameraHeight s) (reached s) (markers s ++ [p]).

(** ** Numeric helpers *)

(** [Phaser.Math.Clamp(value, min, max)]. *)
Definition Clamp (value lo hi : R) : R := Rmax lo (Rmin hi value).

(** [Phaser.Math.Distance.Between(x1, y1, x2, y2)]. *)
Definition DistanceBetween (x1 y1 x2 y2 : R) : R :=
  let dx := x1 - x2 in
  let dy := y1 - y2 in
  sqrt (dx * dx + dy * dy).

(** [Math.atan2(y, x)] on finite arguments. *)
Definition atan2 (y x : R) : R :=
  if Rlt_dec 0 x then atan (y / x)
  else if Rlt_dec x 0 then
    if Rle_dec 0 y then atan (y / x) + PI else atan (y / x) - PI
  else if Rlt_dec 0 y then PI / 2
  else if Rlt_dec y 0 then - (PI / 2)
  else 0.

(** [Phaser.Math.Angle.Between(x1, y1, x2, y2)]. *)
Definition AngleBetween (x1 y1 x2 y2 : R) : R := atan2 (y2 - y1) (x2 - x1).

(** [a || b] on numbers: [a] unless it is zero. *)
Definition orElse (a b : R) : R := if Req_dec_T a 0 then b else a.

(** [a / b]; no finite result on a zero divisor. *)
Definition jsDiv (a b : R) : option R :=
  if Req_dec_T b 0 then None else Some (a / b).

Definition bind {A B : Type} (o : option A) (k : A -> option B) : option B :=
  match o with
  | Some a => k a
  | None => None
  end.

Notation "x <- e ;; k" := (bind e (fun x => k))
  (at level 61, e at next level, right associativity).

(** [private moveSpeed: number = 200], never assigned again. *)
Definition moveSpeed : R := 200.

(** ** Operations of the scene *)

(** The shadow follows the sprite: [shadow.x = helloKitty.x;
    shadow.y = helloKitty.y + 40], guarded by [if (shadow)]. *)
Definition followShadow (s : Scene) : Scene :=
  match shadow s with
  | Some _ =>
      set_shadow (Some (mkPoint (px (helloKitty s)) (py (helloKitty s) + 40))) s
  | None => s
  end.

(** [onReachedStation(station)]: the call is logged and the binding reset. *)
Definition onReachedStation (st : StationRef) (s : Scene) : Scene :=
  set_currentStation None (log_reached st s).

(** [moveToPosition(x, y)]. *)
Definition moveToPosition (x y : R) (s : Scene) : Scene :=
  let width := cameraWidth s in
  let height := cameraHeight s in
  let x' := Clamp x 50 (width - 50) in
  let y' := Clamp y 100 (height - 50) in
  log_marker (mkPoint x' y')
    (set_isMoving true (set_targetPosition (Some (mkPoint x' y')) s)).

(** [moveToStation(station)]. *)
Definition moveToStation (st : StationRef) (s : Scene) : Scene :=
  let targetX := px (stationPosition st (stations s)) in
  let targetY := py (stationPosition st (stations s)) + 80 in
  set_currentStation (Some st) (moveToPosition targetX targetY s).

(** The arrival branch of [moveHelloKittyToTarget] (the body of
    [if (distance < 5)]): snap to the target, stop, move the shadow, and
    report the station bound in [currentStation], if any. *)
Definition arriveAtTarget (t : Point) (s : Scene) : Scene :=
  let s1 := followShadow
              (set_isMoving false (set_helloKitty (mkPoint (px t) (py t)) s)) in
  match currentStation s1 with
  | Some st => onReachedStation st s1
  | None => s1
  end.

(** The rest of [moveHelloKittyToTarget]: one step of length
    [moveSpeed * delta / 1000] at the angle of the target, then the shadow
    and the flip of the sprite. *)
Definition advanceToTarget (delta : R) (t : Point) (s : Scene) : Scene :=
  let angle :=
    AngleBetween (px (helloKitty s)) (py (helloKitty s)) (px t) (py t) in
  let moveDistance := moveSpeed * delta / 1000 in
  let s1 := followShadow
              (set_helloKitty
                 (mkPoint (px (helloKitty s) + cos angle * moveDistance)
                          (py (helloKitty s) + sin angle * moveDistance)) s) in
  if Rlt_dec (px t) (px (helloKitty s1))
  then set_flipX true s1
  else set_flipX false s1.

(** [moveHelloKittyToTarget(delta)]. *)
Definition moveHelloKittyToTarget (delta : R) (s : Scene) : Scene :=
  match targetPosition s with
  | None => s
  | Some t =>
      let distance :=
        DistanceBetween (px (helloKitty s)) (py (helloKitty s)) (px t) (py t) in
      if Rlt_dec distance 5 then arriveAtTarget t s
      else advanceToTarget delta t s
  end.

(** [update(_time, delta)]. *)
Definition update (delta : R) (s : Scene) : Scene :=
  match isMoving s, targetPosition s with
  | true, Some _ => moveHelloKittyToTarget delta s
  | _, _ => s
  end.

(** [layout(width, height)]: the stations go to their fractional anchors;
    Hello Kitty is centred only while there has been no movement yet. *)
Definition layout (width height : R) (s : Scene) : Scene :=
  let topY := height * (18 / 100) in
  let centerY := height * (5 / 10) in
  let bottomY := height * (7 / 10) in
  let s1 := set_stations
              (mkStations (mkPoint (width * (25 / 100)) topY)
                          (mkPoint (width * (5 / 10)) topY)
                          (mkPoint (width * (75 / 100)) topY)
                          (mkPoint (width * (78 / 100)) bottomY)) s in
  match isMoving s1, targetPosition s1 with
  | false, None => followShadow (set_helloKitty (mkPoint (width / 2) centerY) s1)
  | _, _ => s1
  end.

(** First part of [handleResize] (up to the call of [layout]): Hello Kitty,
    her shadow and the stored target keep their relative position. *)
Definition rescalePositions (width height : R) (s : Scene) : option Scene :=
  let oldWidth := orElse (lastWidth s) width in
  let oldHeight := orElse (lastHeight s) height in
  relX <- jsDiv (px (helloKitty s)) oldWidth ;;
  relY <- jsDiv (py (helloKitty s)) oldHeight ;;
  let s1 := followShadow (set_helloKitty (mkPoint (relX * width) (relY * height)) s) in
  match targetPosition s1 with
  | Some t =>
      tx <- jsDiv (px t) oldWidth ;;
      ty <- jsDiv (py t) oldHeight ;;
      Some (set_targetPosition (Some (mkPoint (tx * width) (ty * height))) s1)
  | None => Some s1
  end.

(** [handleResize(gameSize, ...)] with [gameSize = (width, height)]: the
    rescale, then [layout], then the new size is recorded.  When the
    rescale has divided by zero the position and the shadow it wrote are
    [NaN]; the code carries on, and [layout] overwrites both if Hello Kitty
    is at rest and no target is stored, so that the scene ends as if the
    rescale had not run.  Otherwise the [NaN] stays (in the position, and
    in the target if there is one) and there is no result. *)
Definition handleResize (width height : R) (s : Scene) : option Scene :=
  match rescalePositions width height s with
  | Some s1 => Some (set_lastSize width height (layout width height s1))
  | None =>
      match isMoving s, targetPosition s with
      | false, None => Some (set_lastSize width height (layout width height s))
      | _, _ => None
      end
  end.

(** The scene as [create()] leaves it, for a camera and a scale manager of
    the same size. *)
Definition create (width height : R) : Scene :=
  layout width height
    (mkScene (mkPoint (width / 2) (height * (5 / 10))) false
       (Some (mkPoint (width / 2) (height * (5 / 10) + 40)))
       (mkStations (mkPoint (width * (25 / 100)) (height * (2 / 10)))
                   (mkPoint (width * (5 / 10)) (height * (2 / 10)))
                   (mkPoint (width * (75 / 100)) (height * (2 / 10)))
                   (mkPoint (width * (78 / 100)) (height * (7 / 10))))
       width height false None None width height [] []).

(** Several frames in a row. *)
Fixpoint updates (deltas : list R) (s : Scene) : Scene :=
  match deltas with
  | [] => s
  | d :: ds => updates ds (update d s)
  end.

(** Distance from Hello Kitty to the stored target, as
    [moveHelloKittyToTarget] computes it. *)
Definition distanceToTarget (s : Scene) : R :=
  match targetPosition s with
  | Some t => DistanceBetween (px (helloKitty s)) (py (helloKitty s)) (px t) (py t)
  | None => 0
  end.

(** The station whose arrival is pending, as a list of callbacks to come. *)
Definition pendingCallbacks (s : Scene) : list StationRef :=
  match currentStation s with
  | Some st => [st]
  | None => []
  end.

(** The target after a rescale by the divisors [ow], [oh]. *)
Definition scaledTarget (ow oh w h : R) (o : option Point) : option Point :=
  match o with
  | Some t => Some (mkPoint (px t / ow * w) (py t / oh * h))
  | None => None
  end.


(** The shadow sits 40 pixels below the sprite. *)
Definition shadowAttached (s : Scene) : Prop :=
  shadow s = Some (mkPoint (px (helloKitty s)) (py (helloKitty s) + 40)).

(** The scenes a session can be in: [create()], then clicks on stations,
    clicks on the floor, frames and resizes in any order.  The size of the
    main camera is Phaser's to change. *)
Inductive reachable : Scene -> Prop :=
  | reach_create (w h : R) : reachable (create w h)
  | reach_station (st : StationRef) (s : Scene) :
      reachable s -> reachable (moveToStation st s)
  | reach_floor (x y : R) (s : Scene) :
      reachable s -> reachable (moveToPosition x y s)
  | reach_frame (delta : R) (s : Scene) :
      reachable s -> reachable (update delta s)
  | reach_resize (w h : R) (s s' : Scene) :
      reachable s -> handleResize w h s = Some s' -> reachable s'
  | reach_camera (w h : R) (s : Scene) :
      reachable s -> reachable (set_camera w h s).

(** Hello Kitty is where [layout] would leave her alone: a movement has
    been ordered, or she stands at the centre of the recorded viewport. *)
Definition placed (s : Scene) : Prop :=
  isMoving s = true \/ targetPosition s <> None \/
  helloKitty s = mkPoint (lastWidth s / 2) (lastHeight s * (5 / 10)).

(** A bound station belongs to a movement under way. *)
Definition boundWhileMoving (s : Scene) : Prop :=
  currentStation s <> None -> isMoving s = true /\ targetPosition s <> None.

(** Scenes used as examples: the kitchen on an 800 x 600 viewport, and
    orders given in it. *)
Definition kitchen : Scene := create 800 600.

(** A click on the table, then, before any frame, on the floor where
    Hello Kitty stands. *)
Definition tableThenFloor : Scene :=
  moveToPosition 400 300 (moveToStation Mesa kitchen).

(** A click on the counter, one frame of 100 ms, then a click on the floor
    2 pixels below where Hello Kitty has got to. *)
Definition counterOrder : Scene := moveToStation Bancada kitchen.
Definition counterThenFloor : Scene :=
  moveToPosition 400 282 (update 100 counterOrder).

(** A click on the floor where Hello Kitty stands. *)
Definition floorAtFeet : Scene := moveToPosition 400 300 kitchen.

(** A click on the floor 10 pixels to her right. *)
Definition shortWalk : Scene := moveToPosition 410 300 kitchen.

(** A walk under way in a scene whose recorded viewport size is zero. *)
Definition unrecordedWalk : Scene :=
  set_lastSize 0 0 (moveToPosition 500 300 kitchen).

(** ** Clicks, decoration, loading bar and window resizes

    The rest of [KitchenScene], the loading bar of [PreloadScene] and the
    resize scheduling of [main.ts]. *)

(** [Phaser.Geom.Rectangle]; [contains] is Phaser's
    [Rectangle.Contains]: false on an empty rectangle, borders included. *)
Record Rectangle : Type := mkRectangle {
  rectX : R;
  rectY : R;
  rectWidth : R;
  rectHeight : R
}.

Definition Rleb (a b : R) : bool := if Rle_dec a b then true else false.

Definition RectangleContains (r : Rectangle) (x y : R) : bool :=
  if Rle_dec (rectWidth r) 0 then false
  else if Rle_dec (rectHeight r) 0 then false
  else Rleb (rectX r) x && Rleb x (rectX r + rectWidth r)
       && Rleb (rectY r) y && Rleb y (rectY r + rectHeight r).

(** [this.stations], in the order of [createStations]. *)
Definition allStations : list StationRef := [Armario; Bancada; Forno; Mesa].

(** Size of the station textures generated by [PreloadScene]:
    100 x 80 for the three diamonds, 100 x 100 for the table. *)
Definition textureWidth (st : StationRef) : R := 100.

Definition textureHeight (st : StationRef) : R :=
  match st with
  | Mesa => 100
  | _ => 80
  end.

(** Scale of a station sprite: [setScale(1.1)] on [pointerover],
    [setScale(1.0)] on [pointerout] and at creation. *)
Definition spriteScale (hovered : bool) : R := if hovered then 11 / 10 else 1.

(** [station.sprite.getBounds()]: the sprite is centred (origin 0.5) on the
    station's position and is not rotated. *)
Definition getBounds (hovered : StationRef -> bool) (st : StationRef) (s : Scene)
  : Rectangle :=
  let p := stationPosition st (stations s) in
  let displayWidth := textureWidth st * spriteScale (hovered st) in
  let displayHeight := textureHeight st * spriteScale (hovered st) in
  mkRectangle (px p - displayWidth * (5 / 10)) (py p - displayHeight * (5 / 10))
              displayWidth displayHeight.

(** The scene's [pointerdown] handler of [setupClickControls]: free
    movement unless the pointer is inside the bounds of a station. *)
Definition onPointerDown (hovered : StationRef -> bool) (x y : R) (s : Scene) : Scene :=
  let clickedStation :=
    existsb (fun st => RectangleContains (getBounds hovered st s) x y) allStations in
  if clickedStation then s else moveToPosition x y s.


(** The anchors [layout] gives to [updateStationPosition]. *)
Definition layoutAnchor (width height : R) (st : StationRef) : Point :=
  match st with
  | Armario => mkPoint (width * (25 / 100)) (height * (18 / 100))
  | Bancada => mkPoint (width * (5 / 10)) (height * (18 / 100))
  | Forno => mkPoint (width * (75 / 100)) (height * (18 / 100))
  | Mesa => mkPoint (width * (78 / 100)) (height * (7 / 10))
  end.

(** [labelOffset] (and [iconOffset], which is the same) of [layout]. *)
Definition labelOffset (height : R) : R := Rmax 50 (Rmin 90 (height * (1 / 10))).

(** Where [updateStationPosition] puts the label and the icon. *)
Definition labelPosition (width height : R) (st : StationRef) : Point :=
  mkPoint (px (layoutAnchor width height st))
          (py (layoutAnchor width height st) - labelOffset height).

Definition iconPosition (width height : R) (st : StationRef) : Point :=
  mkPoint (px (layoutAnchor width height st))
          (py (layoutAnchor width height st) + labelOffset height).

(** [PreloadScene]: the border drawn by [createLoadingBar], the fill drawn
    by [updateLoadingBar(value)] and the percentage it prints. *)
Definition loadingBarBorder (width height : R) : Rectangle :=
  mkRectangle (width / 2 - 160) (height / 2 - 10) 320 30.

Definition loadingBarFill (width height value : R) : Rectangle :=
  mkRectangle (width / 2 - 155) (height / 2 - 5) (310 * value) 20.

Definition progressPercent (value : R) : Z := Zfloor (value * 100).

(** [main.ts]: the window, the handle of the pending animation-frame
    request, the requests the browser holds, and the calls of
    [game.scale.resize] so far. *)
Record Browser : Type := mkBrowser {
  innerWidth : R;
  innerHeight : R;
  resizeHandle : option nat;
  frameRequests : list nat;
  nextHandle : nat;
  scaleResizes : list (R * R)
}.

(** [scheduleResize()]. *)
Definition scheduleResize (b : Browser) : Browser :=
  match resizeHandle b with
  | Some _ => b
  | None =>
      mkBrowser (innerWidth b) (innerHeight b) (Some (nextHandle b))
        (frameRequests b ++ [nextHandle b]) (S (nextHandle b)) (scaleResizes b)
  end.

(** The callback [scheduleResize] hands to [requestAnimationFrame]. *)
Definition resizeCallback (b : Browser) : Browser :=
  mkBrowser (innerWidth b) (innerHeight b) None (frameRequests b) (nextHandle b)
    (scaleResizes b ++ [(innerWidth b, innerHeight b)]).

(** The window's [resize] event, with the new inner size. *)
Definition windowResized (w h : R) (b : Browser) : Browser :=
  scheduleResize
    (mkBrowser w h (resizeHandle b) (frameRequests b) (nextHandle b) (scaleResizes b)).

(** An animation frame: the browser runs the callbacks requested so far. *)
Definition animationFrame (b : Browser) : Browser :=
  fold_left (fun b' _ => resizeCallback b') (frameRequests b)
    (mkBrowser (innerWidth b) (innerHeight b) (resizeHandle b) [] (nextHandle b)
       (scaleResizes b)).

(** What happens in the window: resizes, the timer of [orientationchange]
    firing (it calls [scheduleResize]), animation frames. *)
Inductive BrowserEvent : Type :=
  | WindowResize (w h : R)
  | TimerFires
  | AnimationFrame.

Definition browserStep (b : Browser) (e : BrowserEvent) : Browser :=
  match e with
  | WindowResize w h => windowResized w h b
  | TimerFires => scheduleResize b
  | AnimationFrame => animationFrame b
  end.

Definition isFrame (e : BrowserEvent) : bool :=
  match e with
  | AnimationFrame => true
  | _ => false
  end.

(** At most one request is pending, and it is the one [resizeHandle]
    names. *)
Definition debounced (b : Browser) : Prop :=
  match resizeHandle b with
  | Some hd => frameRequests b = [hd]
  | None => frameRequests b = []
  end.

(** Unfolds the operations of the scene on a concrete scene, leaving the
    arithmetic on reals untouched. *)
Ltac scene_cbn :=
  cbn [helloKitty flipX shadow stations lastWidth lastHeight isMoving
       targetPosition currentStation cameraWidth cameraHeight reached markers
       px py armario bancada forno mesa stationPosition
       set_helloKitty set_flipX set_shadow set_stations set_lastSize
       set_isMoving set_targetPosition set_currentStation set_camera
       log_reached log_marker followShadow onReachedStation
       moveToPosition moveToStation arriveAtTarget create layout
       pendingCallbacks distanceToTarget app].

(** Unfolds a resize whose divisors are known not to be zero. *)
Ltac resize_cbn :=
  cbn [handleResize rescalePositions layout followShadow bind
       helloKitty flipX shadow stations lastWidth lastHeight isMoving
       targetPosition currentStation cameraWidth cameraHeight reached markers
       px py set_helloKitty set_shadow set_stations set_lastSize
       set_targetPosition].

(** ** Geometry of one frame *)

Section Geometry.

Lemma DistanceBetween_nonneg (x1 y1 x2 y2 : R) :
  0 <= DistanceBetween x1 y1 x2 y2.
Proof. unfold DistanceBetween. apply sqrt_pos. Qed.

Lemma sum_squares_nonneg (a b : R) : 0 <= a * a + b * b.
Proof. nra. Qed.

(** The arrival test [distance < 5] on the squared distance. *)
Lemma DistanceBetween_lt_5 (x1 y1 x2 y2 : R) :
  DistanceBetween x1 y1 x2 y2 < 5 <->
  (x1 - x2) * (x1 - x2) + (y1 - y2) * (y1 - y2) < 25.
Proof.
  unfold DistanceBetween; cbv zeta.
  set (q := (x1 - x2) * (x1 - x2) + (y1 - y2) * (y1 - y2)).
  assert (Hq : 0 <= q) by apply sum_squares_nonneg.
  pose proof (sqrt_pos q) as Hs.
  pose proof (sqrt_sqrt q Hq) as Hss.
  split; intro H; nra.
Qed.

Lemma DistanceBetween_sym (x1 y1 x2 y2 : R) :
  DistanceBetween x1 y1 x2 y2 = DistanceBetween x2 y2 x1 y1.
Proof. unfold DistanceBetween; cbv zeta. f_equal. ring. Qed.

Lemma DistanceBetween_same (x y : R) : DistanceBetween x y x y = 0.
Proof.
  unfold DistanceBetween; cbv zeta.
  replace ((x - x) * (x - x) + (y - y) * (y - y)) with 0 by ring.
  apply sqrt_0.
Qed.

Lemma sqrt_one_plus_ratio (x y r : R) :
  0 < x -> 0 < r -> r * r = x * x + y * y ->
  sqrt (1 + (y / x)²) = r / x.
Proof.
  intros Hx Hr Hrr. apply sqrt_lem_1.
  - unfold Rsqr. nra.
  - apply Rlt_le, Rdiv_lt_0_compat; assumption.
  - unfold Rsqr.
    replace (1 + y / x * (y / x)) with ((x * x + y * y) / (x * x)) by (field; lra).
    rewrite <- Hrr. field. lra.
Qed.

(** [Math.cos] and [Math.sin] of [Math.atan2(y, x)] are the coordinates of
    the unit vector along [(x, y)]. *)
Lemma cos_sin_atan2 (y x : R) :
  x <> 0 \/ y <> 0 ->
  cos (atan2 y x) = x / sqrt (x * x + y * y) /\
  sin (atan2 y x) = y / sqrt (x * x + y * y).
Proof.
  intros Hnz.
  set (r := sqrt (x * x + y * y)).
  assert (Hq : 0 < x * x + y * y) by (destruct Hnz; nra).
  assert (Hr : 0 < r) by (apply sqrt_lt_R0; exact Hq).
  assert (Hrr : r * r = x * x + y * y) by (apply sqrt_sqrt; lra).
  unfold atan2.
  destruct (Rlt_dec 0 x) as [Hx | Hx].
  - rewrite cos_atan, sin_atan, (sqrt_one_plus_ratio x y r) by assumption.
    split; field; lra.
  - destruct (Rlt_dec x 0) as [Hx' | Hx'].
    + assert (Hs : sqrt (1 + (y / x)²) = r / - x).
      { replace (y / x) with ((- y) / (- x)) by (field; lra).
        apply sqrt_one_plus_ratio; try lra. }
      destruct (Rle_dec 0 y).
      * rewrite neg_cos, neg_sin, cos_atan, sin_atan, Hs. split; field; lra.
      * unfold Rminus. rewrite cos_plus, sin_plus, cos_neg, sin_neg, cos_PI, sin_PI.
        rewrite cos_atan, sin_atan, Hs. split; field; lra.
    + assert (x = 0) by lra. subst x.
      assert (Hy : y <> 0) by (destruct Hnz; [lra | assumption]).
      destruct (Rlt_dec 0 y) as [Hy1 | Hy1].
      * rewrite cos_PI2, sin_PI2.
        assert (r = y) by (apply Rsqr_inj; unfold Rsqr; lra).
        split; [ | rewrite H ]; field; lra.
      * destruct (Rlt_dec y 0); [ | lra ].
        rewrite cos_neg, sin_neg, cos_PI2, sin_PI2.
        assert (r = - y) by (apply Rsqr_inj; unfold Rsqr; lra).
        split; [ | rewrite H ]; field; lra.
Qed.

(** One step of length [m] along the line to the target, from distance
    [d > 0]: the new distance is [|d - m|]. *)
Lemma DistanceBetween_after_step (kx ky tx ty m : R) :
  let d := DistanceBetween kx ky tx ty in
  let angle := AngleBetween kx ky tx ty in
  0 < d ->
  DistanceBetween (kx + cos angle * m) (ky + sin angle * m) tx ty
  = Rabs (d - m).
Proof.
  intros d angle Hd.
  assert (Hd2 : d = sqrt ((tx - kx) * (tx - kx) + (ty - ky) * (ty - ky))).
  { unfold d, DistanceBetween; cbv zeta. f_equal. ring. }
  assert (Hnz : tx - kx <> 0 \/ ty - ky <> 0).
  { destruct (Req_dec (tx - kx) 0) as [E1 | E1]; [ | left; exact E1 ].
    destruct (Req_dec (ty - ky) 0) as [E2 | E2]; [ | right; exact E2 ].
    exfalso. rewrite Hd2, E1, E2 in Hd.
    replace (0 * 0 + 0 * 0) with 0 in Hd by ring. rewrite sqrt_0 in Hd. lra. }
  destruct (cos_sin_atan2 (ty - ky) (tx - kx) Hnz) as [Hc Hs].
  fold (AngleBetween kx ky tx ty) in Hc, Hs. fold angle in Hc, Hs.
  rewrite <- Hd2 in Hc, Hs.
  assert (Hdd : d * d = (tx - kx) * (tx - kx) + (ty - ky) * (ty - ky)).
  { rewrite Hd2. apply sqrt_sqrt. apply sum_squares_nonneg. }
  unfold DistanceBetween; cbv zeta.
  rewrite Hc, Hs.
  rewrite <- sqrt_Rsqr_abs. f_equal. unfold Rsqr.
  field_simplify; try lra.
  replace (tx ^ 2) with (d * d - (ty - ky) * (ty - ky) + 2 * tx * kx - kx * kx)
    by (rewrite Hdd; ring).
  field. lra.
Qed.

End Geometry.

(** ** Frames *)

Section Frames.

Lemma followShadow_fields (s : Scene) :
  helloKitty (followShadow s) = helloKitty s /\
  flipX (followShadow s) = flipX s /\
  isMoving (followShadow s) = isMoving s /\
  targetPosition (followShadow s) = targetPosition s /\
  currentStation (followShadow s) = currentStation s /\
  reached (followShadow s) = reached s /\
  lastWidth (followShadow s) = lastWidth s /\
  lastHeight (followShadow s) = lastHeight s.
Proof. unfold followShadow. destruct (shadow s); simpl; repeat split. Qed.

Lemma followShadow_attached (s : Scene) :
  shadow s <> None -> shadowAttached (followShadow s).
Proof.
  unfold shadowAttached, followShadow. intros H.
  destruct (shadow s); [ reflexivity | contradiction ].
Qed.

Lemma followShadow_shadow_some (s : Scene) :
  shadow s <> None -> shadow (followShadow s) <> None.
Proof.
  unfold followShadow. intros H. destruct (shadow s); [ discriminate | contradiction ].
Qed.

(** What [update] does in each of its three situations. *)

Lemma update_idle (delta : R) (s : Scene) :
  isMoving s = false -> update delta s = s.
Proof. unfold update. intros ->. reflexivity. Qed.

Lemma update_arrive (delta : R) (s : Scene) (t : Point) :
  isMoving s = true -> targetPosition s = Some t ->
  distanceToTarget s < 5 ->
  update delta s = arriveAtTarget t s.
Proof.
  unfold update, moveHelloKittyToTarget, distanceToTarget.
  intros -> -> Hd. cbv zeta.
  destruct (Rlt_dec _ 5); [ reflexivity | contradiction ].
Qed.

Lemma update_advance (delta : R) (s : Scene) (t : Point) :
  isMoving s = true -> targetPosition s = Some t ->
  5 <= distanceToTarget s ->
  update delta s = advanceToTarget delta t s.
Proof.
  unfold update, moveHelloKittyToTarget, distanceToTarget.
  intros -> -> Hd. cbv zeta.
  destruct (Rlt_dec _ 5); [ lra | reflexivity ].
Qed.

Lemma arriveAtTarget_fields (t : Point) (s : Scene) :
  let s' := arriveAtTarget t s in
  helloKitty s' = t /\
  isMoving s' = false /\
  targetPosition s' = targetPosition s /\
  currentStation s' = None /\
  reached s' = reached s ++ pendingCallbacks s /\
  flipX s' = flipX s.
Proof.
  unfold arriveAtTarget, pendingCallbacks; cbv zeta.
  destruct (followShadow_fields
              (set_isMoving false (set_helloKitty (mkPoint (px t) (py t)) s)))
    as (Hk & Hf & Hm & Ht & Hc & Hr & _).
  rewrite Hc. simpl in *.
  destruct (currentStation s) as [st | ] eqn:Hcs; simpl;
    rewrite ?Hk, ?Hm, ?Ht, ?Hr, ?Hf, ?Hc, ?app_nil_r;
    destruct t; repeat split; auto.
Qed.

Lemma advanceToTarget_fields (delta : R) (t : Point) (s : Scene) :
  let s' := advanceToTarget delta t s in
  let angle := AngleBetween (px (helloKitty s)) (py (helloKitty s)) (px t) (py t) in
  helloKitty s' =
    mkPoint (px (helloKitty s) + cos angle * (moveSpeed * delta / 1000))
            (py (helloKitty s) + sin angle * (moveSpeed * delta / 1000)) /\
  isMoving s' = isMoving s /\
  targetPosition s' = targetPosition s /\
  currentStation s' = currentStation s /\
  reached s' = reached s.
Proof.
  unfold advanceToTarget; cbv zeta.
  match goal with |- context [followShadow ?a] =>
    destruct (followShadow_fields a) as (Hk & Hf & Hm & Ht & Hc & Hr & _) end.
  destruct (Rlt_dec _ _); simpl; rewrite Hk, Hm, Ht, Hc, Hr; simpl; repeat split.
Qed.

(** A frame leaves the camera, the stations, the cached size and the
    markers alone. *)
Lemma update_environment (delta : R) (s : Scene) :
  cameraWidth (update delta s) = cameraWidth s /\
  cameraHeight (update delta s) = cameraHeight s /\
  stations (update delta s) = stations s /\
  lastWidth (update delta s) = lastWidth s /\
  lastHeight (update delta s) = lastHeight s /\
  markers (update delta s) = markers s.
Proof.
  unfold update, moveHelloKittyToTarget, arriveAtTarget, advanceToTarget,
    onReachedStation, followShadow; cbv zeta.
  destruct (isMoving s); [ | repeat split ].
  destruct (targetPosition s) as [t | ]; [ | repeat split ].
  destruct (Rlt_dec _ 5).
  - simpl. destruct (shadow s); simpl; destruct (currentStation s); simpl; repeat split.
  - simpl. destruct (shadow s); simpl; destruct (Rlt_dec _ _); simpl; repeat split.
Qed.

End Frames.

(** ** Movement cycles *)

Section Cycles.

Lemma updates_idle (ds : list R) (s : Scene) :
  isMoving s = false -> updates ds s = s.
Proof.
  induction ds as [ | d ds IH ]; intros H; simpl.
  - reflexivity.
  - rewrite update_idle by exact H. apply IH, H.
Qed.

Lemma updates_app (ds1 ds2 : list R) (s : Scene) :
  updates (ds1 ++ ds2) s = updates ds2 (updates ds1 s).
Proof.
  revert s. induction ds1 as [ | d ds1 IH ]; intros s; simpl; [ reflexivity | apply IH ].
Qed.

(** While an order is in flight, a run of frames either is still under way,
    with nothing reported, or has ended at the target, with exactly the
    pending station reported. *)
Lemma updates_moving (ds : list R) :
  forall (s : Scene) (t : Point),
    isMoving s = true -> targetPosition s = Some t ->
    let s' := updates ds s in
    targetPosition s' = Some t /\
    ((isMoving s' = true /\ reached s' = reached s /\
      currentStation s' = currentStation s) \/
     (isMoving s' = false /\ reached s' = reached s ++ pendingCallbacks s /\
      currentStation s' = None /\ helloKitty s' = t)).
Proof.
  induction ds as [ | d ds IH ]; intros s t Hm Ht; cbv zeta; simpl.
  - split; [ exact Ht | left; repeat split; assumption ].
  - destruct (Rlt_le_dec (distanceToTarget s) 5) as [Hd | Hd].
    + rewrite (update_arrive d s t Hm Ht Hd).
      destruct (arriveAtTarget_fields t s) as (Hk & Hm' & Ht' & Hc & Hr & _).
      rewrite updates_idle by exact Hm'.
      split; [ congruence | right; repeat split; assumption ].
    + rewrite (update_advance d s t Hm Ht Hd).
      destruct (advanceToTarget_fields d t s) as (_ & Hm' & Ht' & Hc & Hr).
      destruct (IH (advanceToTarget d t s) t) as (Ht2 & Hcases); try congruence.
      split; [ exact Ht2 | ].
      unfold pendingCallbacks in *. rewrite Hc, Hr in Hcases. exact Hcases.
Qed.

Lemma moveToPosition_fields (x y : R) (s : Scene) :
  let s' := moveToPosition x y s in
  isMoving s' = true /\
  targetPosition s' =
    Some (mkPoint (Clamp x 50 (cameraWidth s - 50)) (Clamp y 100 (cameraHeight s - 50))) /\
  currentStation s' = currentStation s /\
  reached s' = reached s /\
  helloKitty s' = helloKitty s.
Proof. cbv zeta. unfold moveToPosition. simpl. repeat split. Qed.

Lemma moveToStation_fields (st : StationRef) (s : Scene) :
  let s' := moveToStation st s in
  isMoving s' = true /\
  targetPosition s' =
    Some (mkPoint (Clamp (px (stationPosition st (stations s))) 50 (cameraWidth s - 50))
                  (Clamp (py (stationPosition st (stations s)) + 80) 100
                         (cameraHeight s - 50))) /\
  currentStation s' = Some st /\
  reached s' = reached s /\
  helloKitty s' = helloKitty s.
Proof. cbv zeta. unfold moveToStation, moveToPosition. simpl. repeat split. Qed.

(** A cycle started by [moveToStation] reports its station exactly once,
    at the frame of arrival. *)
Lemma station_cycle_reports_once (st : StationRef) (ds : list R) (s : Scene) :
  let s' := updates ds (moveToStation st s) in
  (isMoving s' = true -> reached s' = reached s) /\
  (isMoving s' = false -> reached s' = reached s ++ [st]).
Proof.
  cbv zeta.
  destruct (moveToStation_fields st s) as (Hm & Ht & Hc & Hr & _).
  destruct (updates_moving ds _ _ Hm Ht) as (_ & [ (Hm' & Hr' & _) | (Hm' & Hr' & _) ]);
    unfold pendingCallbacks in *; rewrite ?Hc, ?Hr in *;
    split; intros H; congruence.
Qed.

(** A cycle started by [moveToPosition] reports, on arrival, whatever station
    was still bound when it started. *)
Lemma free_cycle_reports_pending (x y : R) (ds : list R) (s : Scene) :
  let s' := updates ds (moveToPosition x y s) in
  (isMoving s' = true -> reached s' = reached s) /\
  (isMoving s' = false -> reached s' = reached s ++ pendingCallbacks s).
Proof.
  cbv zeta.
  destruct (moveToPosition_fields x y s) as (Hm & Ht & Hc & Hr & _).
  destruct (updates_moving ds _ _ Hm Ht) as (_ & [ (Hm' & Hr' & _) | (Hm' & Hr' & _) ]);
    unfold pendingCallbacks in *; rewrite ?Hc, ?Hr in *;
    split; intros H; congruence.
Qed.

End Cycles.

(** ** Evaluation on concrete scenes *)

Section Evaluation.

Lemma Clamp_inside (v lo hi : R) : lo <= v <= hi -> Clamp v lo hi = v.
Proof.
  intros [H1 H2]. unfold Clamp.
  rewrite (Rmin_right hi v) by exact H2. apply Rmax_right, H1.
Qed.


Lemma Clamp_above (v lo hi : R) : hi <= v -> lo <= hi -> Clamp v lo hi = hi.
Proof.
  intros H1 H2. unfold Clamp.
  rewrite (Rmin_left hi v) by exact H1. apply Rmax_right, H2.
Qed.

Lemma Clamp_range (v lo hi : R) : lo <= hi -> lo <= Clamp v lo hi <= hi.
Proof.
  intros H. unfold Clamp. split.
  - apply Rmax_l.
  - apply Rmax_lub; [ exact H | apply Rmin_l ].
Qed.

(** With the bounds the wrong way round (a viewport narrower than 100 or
    lower than 150 pixels) the lower bound wins. *)
Lemma Clamp_crossed (v lo hi : R) : hi <= lo -> Clamp v lo hi = lo.
Proof.
  intros H. unfold Clamp. apply Rmax_left.
  apply Rle_trans with hi; [ apply Rmin_l | exact H ].
Qed.

Lemma atan2_east (x : R) : 0 < x -> atan2 0 x = 0.
Proof.
  intros H. unfold atan2. destruct (Rlt_dec 0 x); [ | contradiction ].
  replace (0 / x) with 0 by (field; lra). apply atan_0.
Qed.

Lemma atan2_west (x : R) : x < 0 -> atan2 0 x = PI.
Proof.
  intros H. unfold atan2.
  destruct (Rlt_dec 0 x); [ lra | ].
  destruct (Rlt_dec x 0); [ | contradiction ].
  destruct (Rle_dec 0 0); [ | lra ].
  replace (0 / x) with 0 by (field; lra). rewrite atan_0. ring.
Qed.

Lemma atan2_up (y : R) : y < 0 -> atan2 y 0 = - (PI / 2).
Proof.
  intros H. unfold atan2.
  destruct (Rlt_dec 0 0); [ lra | ].
  destruct (Rlt_dec 0 y); [ lra | ].
  destruct (Rlt_dec y 0); [ reflexivity | contradiction ].
Qed.

Lemma Point_eq (a b c d : R) : a = c -> b = d -> mkPoint a b = mkPoint c d.
Proof. intros -> ->. reflexivity. Qed.

Lemma distanceToTarget_at (s : Scene) (kx ky tx ty : R) :
  helloKitty s = mkPoint kx ky -> targetPosition s = Some (mkPoint tx ty) ->
  distanceToTarget s = DistanceBetween kx ky tx ty.
Proof. unfold distanceToTarget. intros -> ->. reflexivity. Qed.

Lemma DistanceBetween_ge_5 (x1 y1 x2 y2 : R) :
  25 <= (x1 - x2) * (x1 - x2) + (y1 - y2) * (y1 - y2) ->
  5 <= DistanceBetween x1 y1 x2 y2.
Proof.
  intros H. destruct (Rlt_le_dec (DistanceBetween x1 y1 x2 y2) 5) as [Hlt | Hle].
  - apply DistanceBetween_lt_5 in Hlt. lra.
  - exact Hle.
Qed.

(** A frame on a scene whose sprite is within 5 pixels of the target. *)
Lemma update_near (delta : R) (s : Scene) (kx ky tx ty : R) :
  isMoving s = true ->
  helloKitty s = mkPoint kx ky -> targetPosition s = Some (mkPoint tx ty) ->
  (kx - tx) * (kx - tx) + (ky - ty) * (ky - ty) < 25 ->
  let s' := update delta s in
  helloKitty s' = mkPoint tx ty /\ isMoving s' = false /\
  targetPosition s' = Some (mkPoint tx ty) /\
  currentStation s' = None /\
  reached s' = reached s ++ pendingCallbacks s.
Proof.
  intros Hm Hk Ht Hd. cbv zeta.
  rewrite (update_arrive delta s (mkPoint tx ty) Hm Ht).
  - destruct (arriveAtTarget_fields (mkPoint tx ty) s) as (H1 & H2 & H3 & H4 & H5 & _).
    repeat split; congruence.
  - rewrite (distanceToTarget_at s kx ky tx ty Hk Ht).
    apply DistanceBetween_lt_5, Hd.
Qed.

(** A frame on a scene whose target lies straight along one axis, at 5
    pixels or more: to the right, to the left, and upwards. *)
Lemma update_east (delta : R) (s : Scene) (kx ky tx : R) :
  isMoving s = true ->
  helloKitty s = mkPoint kx ky -> targetPosition s = Some (mkPoint tx ky) ->
  kx + 5 <= tx ->
  let s' := update delta s in
  helloKitty s' = mkPoint (kx + moveSpeed * delta / 1000) ky /\
  isMoving s' = true /\ targetPosition s' = Some (mkPoint tx ky) /\
  currentStation s' = currentStation s /\ reached s' = reached s.
Proof.
  intros Hm Hk Ht Hd. cbv zeta.
  rewrite (update_advance delta s (mkPoint tx ky) Hm Ht).
  - destruct (advanceToTarget_fields delta (mkPoint tx ky) s) as (H1 & H2 & H3 & H4 & H5).
    rewrite Hk in H1. cbn [px py] in H1. unfold AngleBetween in H1.
    replace (ky - ky) with 0 in H1 by ring.
    rewrite atan2_east, cos_0, sin_0 in H1 by lra.
    repeat split; try congruence.
    rewrite H1. apply Point_eq; ring.
  - rewrite (distanceToTarget_at s kx ky tx ky Hk Ht).
    apply DistanceBetween_ge_5. nra.
Qed.

Lemma update_west (delta : R) (s : Scene) (kx ky tx : R) :
  isMoving s = true ->
  helloKitty s = mkPoint kx ky -> targetPosition s = Some (mkPoint tx ky) ->
  tx + 5 <= kx ->
  let s' := update delta s in
  helloKitty s' = mkPoint (kx - moveSpeed * delta / 1000) ky /\
  isMoving s' = true /\ targetPosition s' = Some (mkPoint tx ky) /\
  currentStation s' = currentStation s /\ reached s' = reached s.
Proof.
  intros Hm Hk Ht Hd. cbv zeta.
  rewrite (update_advance delta s (mkPoint tx ky) Hm Ht).
  - destruct (advanceToTarget_fields delta (mkPoint tx ky) s) as (H1 & H2 & H3 & H4 & H5).
    rewrite Hk in H1. cbn [px py] in H1. unfold AngleBetween in H1.
    replace (ky - ky) with 0 in H1 by ring.
    rewrite atan2_west, cos_PI, sin_PI in H1 by lra.
    repeat split; try congruence.
    rewrite H1. apply Point_eq; ring.
  - rewrite (distanceToTarget_at s kx ky tx ky Hk Ht).
    apply DistanceBetween_ge_5. nra.
Qed.

Lemma update_up (delta : R) (s : Scene) (kx ky ty : R) :
  isMoving s = true ->
  helloKitty s = mkPoint kx ky -> targetPosition s = Some (mkPoint kx ty) ->
  ty + 5 <= ky ->
  let s' := update delta s in
  helloKitty s' = mkPoint kx (ky - moveSpeed * delta / 1000) /\
  isMoving s' = true /\ targetPosition s' = Some (mkPoint kx ty) /\
  currentStation s' = currentStation s /\ reached s' = reached s.
Proof.
  intros Hm Hk Ht Hd. cbv zeta.
  rewrite (update_advance delta s (mkPoint kx ty) Hm Ht).
  - destruct (advanceToTarget_fields delta (mkPoint kx ty) s) as (H1 & H2 & H3 & H4 & H5).
    rewrite Hk in H1. cbn [px py] in H1. unfold AngleBetween in H1.
    replace (kx - kx) with 0 in H1 by ring.
    rewrite atan2_up, cos_neg, sin_neg, cos_PI2, sin_PI2 in H1 by lra.
    repeat split; try congruence.
    rewrite H1. apply Point_eq; ring.
  - rewrite (distanceToTarget_at s kx ky kx ty Hk Ht).
    apply DistanceBetween_ge_5. nra.
Qed.

(** The scene of an 800 x 600 viewport. *)
Lemma create_800_600 :
  helloKitty (create 800 600) = mkPoint 400 300 /\
  stationPosition Bancada (stations (create 800 600)) = mkPoint 400 108 /\
  stationPosition Mesa (stations (create 800 600)) = mkPoint 624 420 /\
  cameraWidth (create 800 600) = 800 /\ cameraHeight (create 800 600) = 600 /\
  isMoving (create 800 600) = false /\ targetPosition (create 800 600) = None /\
  currentStation (create 800 600) = None /\ reached (create 800 600) = [].
Proof.
  scene_cbn. repeat split; apply Point_eq; lra.
Qed.

End Evaluation.

(** ** Callbacks and supersession *)

Section Callbacks.

Lemma kitchen_fields :
  helloKitty kitchen = mkPoint 400 300 /\
  stationPosition Bancada (stations kitchen) = mkPoint 400 108 /\
  stationPosition Mesa (stations kitchen) = mkPoint 624 420 /\
  cameraWidth kitchen = 800 /\ cameraHeight kitchen = 600 /\
  isMoving kitchen = false /\ targetPosition kitchen = None /\
  currentStation kitchen = None /\ reached kitchen = [].
Proof. exact create_800_600. Qed.

(** An order for a walkable point of the kitchen, given in a scene with the
    kitchen's camera. *)
Lemma moveToPosition_in_kitchen (x y : R) (s : Scene) :
  cameraWidth s = 800 -> cameraHeight s = 600 ->
  50 <= x <= 750 -> 100 <= y <= 550 ->
  let s' := moveToPosition x y s in
  isMoving s' = true /\ targetPosition s' = Some (mkPoint x y) /\
  currentStation s' = currentStation s /\ reached s' = reached s /\
  helloKitty s' = helloKitty s.
Proof.
  intros Hw Hh Hx Hy. cbv zeta.
  destruct (moveToPosition_fields x y s) as (Hm & Ht & Hc & Hr & Hk).
  rewrite Hw, Hh, !Clamp_inside in Ht by lra.
  repeat split; assumption.
Qed.

(** Claim C1 (callback exactness), evaluated where the code departs from
    it.  On an 800 x 600 scene the player clicks the table and then, before
    arriving, the floor at (400, 300).  The second order is free movement,
    yet the frame on which it arrives reports the table: [moveToPosition]
    leaves [currentStation] bound, so a free-movement cycle fires the
    callback once instead of never. *)
Theorem free_cycle_reports_bound_station :
  currentStation tableThenFloor = Some Mesa /\
  reached tableThenFloor = [] /\
  isMoving (update 16 tableThenFloor) = false /\
  helloKitty (update 16 tableThenFloor) = mkPoint 400 300 /\
  reached (update 16 tableThenFloor) = [Mesa].
Proof.
  destruct kitchen_fields as (Hk & _ & _ & Hw & Hh & _ & _ & _ & Hr).
  destruct (moveToStation_fields Mesa kitchen) as (_ & _ & Hc1 & Hr1 & Hk1).
  destruct (moveToPosition_in_kitchen 400 300 (moveToStation Mesa kitchen))
    as (Hm2 & Ht2 & Hc2 & Hr2 & Hk2); try assumption; try lra.
  fold tableThenFloor in Hm2, Ht2, Hc2, Hr2, Hk2.
  assert (Hk2' : helloKitty tableThenFloor = mkPoint 400 300) by congruence.
  destruct (update_near 16 tableThenFloor 400 300 400 300 Hm2 Hk2' Ht2)
    as (H1 & H2 & _ & _ & H5); [ lra | ].
  unfold pendingCallbacks in H5. rewrite Hc2, Hc1, Hr2, Hr1, Hr in H5. cbn [app] in H5.
  repeat split; congruence.
Qed.

(** Claim C2 (supersession), evaluated where the code departs from it.
    The player clicks the counter, Hello Kitty walks for one frame of
    100 ms, then the player clicks the floor at (400, 282).  The frames
    that follow head for the new target only, but on arrival there the
    counter is reported: the binding of the discarded order survives
    [moveToPosition]. *)
Theorem superseded_station_is_reported :
  targetPosition counterOrder = Some (mkPoint 400 188) /\
  isMoving (update 100 counterOrder) = true /\
  helloKitty (update 100 counterOrder) = mkPoint 400 280 /\
  reached (update 100 counterOrder) = [] /\
  targetPosition counterThenFloor = Some (mkPoint 400 282) /\
  isMoving (update 16 counterThenFloor) = false /\
  helloKitty (update 16 counterThenFloor) = mkPoint 400 282 /\
  reached (update 16 counterThenFloor) = [Bancada].
Proof.
  destruct kitchen_fields as (Hk & Hb & _ & Hw & Hh & _ & _ & _ & Hr).
  destruct (moveToStation_fields Bancada kitchen) as (Hm1 & Ht1 & Hc1 & Hr1 & Hk1).
  fold counterOrder in Hm1, Ht1, Hc1, Hr1, Hk1.
  rewrite Hb, Hw, Hh in Ht1. cbn [px py] in Ht1.
  rewrite !Clamp_inside in Ht1 by lra.
  replace (108 + 80) with 188 in Ht1 by lra.
  rewrite Hk in Hk1.
  destruct (update_up 100 counterOrder 400 300 188 Hm1 Hk1 Ht1)
    as (Hk2 & Hm2 & Ht2 & Hc2 & Hr2); [ lra | ].
  replace (300 - moveSpeed * 100 / 1000) with 280 in Hk2 by (unfold moveSpeed; lra).
  destruct (update_environment 100 counterOrder) as (E1 & E2 & _).
  destruct (moveToPosition_in_kitchen 400 282 (update 100 counterOrder))
    as (Hm3 & Ht3 & Hc3 & Hr3 & Hk3);
    [ rewrite E1; exact Hw | rewrite E2; exact Hh | lra | lra | ].
  fold counterThenFloor in Hm3, Ht3, Hc3, Hr3, Hk3.
  rewrite Hk2 in Hk3.
  destruct (update_near 16 counterThenFloor 400 280 400 282 Hm3 Hk3 Ht3)
    as (H1 & H2 & _ & _ & H5); [ lra | ].
  unfold pendingCallbacks in H5.
  rewrite Hc3, Hc2, Hc1, Hr3, Hr2, Hr1, Hr in H5. cbn [app] in H5.
  repeat split; congruence.
Qed.

(** Claim C3, as amended: on a frame where Hello Kitty is less than 5
    pixels from the target she is put exactly on the target, [isMoving]
    becomes false, the bound station (if any) is reported once and its
    binding cleared; the stored target itself stays as it was. *)
Theorem arrival_frame_snaps_and_reports (delta : R) (s : Scene) (t : Point) :
  isMoving s = true -> targetPosition s = Some t ->
  distanceToTarget s < 5 ->
  helloKitty (update delta s) = t /\
  isMoving (update delta s) = false /\
  reached (update delta s) = reached s ++ pendingCallbacks s /\
  currentStation (update delta s) = None /\
  targetPosition (update delta s) = Some t.
Proof.
  intros Hm Ht Hd.
  rewrite (update_arrive delta s t Hm Ht Hd).
  destruct (arriveAtTarget_fields t s) as (H1 & H2 & H3 & H4 & H5 & _).
  repeat split; congruence.
Qed.

Lemma floorAtFeet_fields :
  isMoving floorAtFeet = true /\
  helloKitty floorAtFeet = mkPoint 400 300 /\
  targetPosition floorAtFeet = Some (mkPoint 400 300) /\
  distanceToTarget floorAtFeet < 5.
Proof.
  destruct kitchen_fields as (Hk & _ & _ & Hw & Hh & _).
  destruct (moveToPosition_in_kitchen 400 300 kitchen Hw Hh)
    as (Hm & Ht & _ & _ & Hk'); try lra.
  fold floorAtFeet in Hm, Ht, Hk'. rewrite Hk in Hk'.
  repeat split; try assumption.
  rewrite (distanceToTarget_at _ _ _ _ _ Hk' Ht). apply DistanceBetween_lt_5. lra.
Qed.

Lemma arrival_frame_snaps_and_reports_witness :
  helloKitty (update 16 floorAtFeet) = mkPoint 400 300 /\
  isMoving (update 16 floorAtFeet) = false /\
  currentStation (update 16 floorAtFeet) = None.
Proof.
  destruct floorAtFeet_fields as (Hm & _ & Ht & Hd).
  destruct (arrival_frame_snaps_and_reports 16 floorAtFeet (mkPoint 400 300) Hm Ht Hd)
    as (H1 & H2 & _ & H4 & _).
  repeat split; assumption.
Defined.

(** Claim C3, as stated, fails: after the frame of arrival the stored
    target is still there. *)
Lemma arrival_keeps_target :
  isMoving floorAtFeet = true /\
  targetPosition floorAtFeet = Some (mkPoint 400 300) /\
  distanceToTarget floorAtFeet < 5 /\
  isMoving (update 16 floorAtFeet) = false /\
  targetPosition (update 16 floorAtFeet) <> None.
Proof.
  destruct floorAtFeet_fields as (Hm & Hk & Ht & Hd).
  destruct (update_near 16 floorAtFeet 400 300 400 300 Hm Hk Ht) as (_ & H2 & H3 & _);
    [ lra | ].
  repeat split; try assumption. rewrite H3. discriminate.
Qed.

(** Claim C4 (idempotent arrival): while [isMoving] is false a frame, and
    any run of frames, leaves the whole scene as it is: position, flip and
    the log of reported stations included. *)
Theorem update_when_idle_is_noop (s : Scene) :
  isMoving s = false ->
  (forall delta, update delta s = s) /\ (forall ds, updates ds s = s).
Proof.
  intros H. split; intros; [ apply update_idle | apply updates_idle ]; exact H.
Qed.

Lemma update_when_idle_is_noop_witness :
  update 16 (update 16 floorAtFeet) = update 16 floorAtFeet /\
  updates [16; 17; 1000] (update 16 floorAtFeet) = update 16 floorAtFeet.
Proof.
  assert (Hidle : isMoving (update 16 floorAtFeet) = false).
  { destruct floorAtFeet_fields as (Hm & Hk & Ht & _).
    destruct (update_near 16 floorAtFeet 400 300 400 300 Hm Hk Ht) as (_ & H2 & _);
      [ lra | exact H2 ]. }
  destruct (update_when_idle_is_noop (update 16 floorAtFeet) Hidle) as [H1 H2].
  split; [ apply H1 | apply H2 ].
Defined.

End Callbacks.

(** ** Orders *)

Section Orders.



(** Claim C9 (station dispatch): [moveToStation] issues the order
    [moveToPosition] for the point 80 pixels below the station's current
    position and binds the station; when that point is walkable it is the
    stored target as it stands. *)
Theorem moveToStation_targets_front_of_station (st : StationRef) (s : Scene) :
  let p := stationPosition st (stations s) in
  moveToStation st s
  = set_currentStation (Some st) (moveToPosition (px p) (py p + 80) s) /\
  currentStation (moveToStation st s) = Some st /\
  isMoving (moveToStation st s) = true /\
  targetPosition (moveToStation st s)
  = targetPosition (moveToPosition (px p) (py p + 80) s) /\
  (50 <= px p <= cameraWidth s - 50 ->
   100 <= py p + 80 <= cameraHeight s - 50 ->
   targetPosition (moveToStation st s) = Some (mkPoint (px p) (py p + 80))).
Proof.
  cbv zeta.
  destruct (moveToStation_fields st s) as (Hm & Ht & Hc & _).
  repeat split; try assumption; try reflexivity.
  intros Hx Hy. rewrite Ht, !Clamp_inside by assumption. reflexivity.
Qed.

Lemma moveToStation_targets_front_of_station_witness :
  targetPosition (moveToStation Mesa kitchen) = Some (mkPoint 624 500) /\
  currentStation (moveToStation Mesa kitchen) = Some Mesa.
Proof.
  destruct create_800_600 as (_ & _ & Hp & Hw & Hh & _).
  fold kitchen in Hp, Hw, Hh.
  destruct (moveToStation_targets_front_of_station Mesa kitchen)
    as (_ & Hc & _ & _ & Ht).
  rewrite Hp, Hw, Hh in Ht. cbn [px py] in Ht.
  split; [ | exact Hc ].
  rewrite Ht by lra. f_equal. apply Point_eq; lra.
Defined.

(** The order follows the station: after a layout for another viewport it
    aims below the station's new position. *)
Lemma moveToStation_after_layout (st : StationRef) (w h : R) (s : Scene) :
  let s1 := layout w h s in
  let p := stationPosition st (stations s1) in
  stations s1 =
    mkStations (mkPoint (w * (25 / 100)) (h * (18 / 100)))
               (mkPoint (w * (5 / 10)) (h * (18 / 100)))
               (mkPoint (w * (75 / 100)) (h * (18 / 100)))
               (mkPoint (w * (78 / 100)) (h * (7 / 10))) /\
  targetPosition (moveToStation st s1)
  = Some (mkPoint (Clamp (px p) 50 (cameraWidth s1 - 50))
                  (Clamp (py p + 80) 100 (cameraHeight s1 - 50))).
Proof.
  cbv zeta. split.
  - unfold layout; cbv zeta. simpl.
    destruct (isMoving s); [ reflexivity | ].
    destruct (targetPosition s); [ reflexivity | ].
    unfold followShadow; simpl. destruct (shadow s); reflexivity.
  - apply moveToStation_fields.
Qed.

End Orders.

(** ** Resize *)

Section Resize.

Lemma jsDiv_some (a b : R) : b <> 0 -> jsDiv a b = Some (a / b).
Proof. unfold jsDiv. intros H. destruct (Req_dec_T b 0); [ contradiction | reflexivity ]. Qed.

Lemma jsDiv_none (a : R) : jsDiv a 0 = None.
Proof. unfold jsDiv. destruct (Req_dec_T 0 0); [ reflexivity | contradiction ]. Qed.

Lemma orElse_nonzero (a b : R) : a <> 0 -> orElse a b = a.
Proof. unfold orElse. intros H. destruct (Req_dec_T a 0); [ contradiction | reflexivity ]. Qed.

Lemma orElse_zero (b : R) : orElse 0 b = b.
Proof. unfold orElse. destruct (Req_dec_T 0 0); [ reflexivity | contradiction ]. Qed.

Lemma rescalePositions_fields (w h : R) (s : Scene) :
  let ow := orElse (lastWidth s) w in
  let oh := orElse (lastHeight s) h in
  ow <> 0 -> oh <> 0 ->
  exists s1,
    rescalePositions w h s = Some s1 /\
    helloKitty s1 = mkPoint (px (helloKitty s) / ow * w) (py (helloKitty s) / oh * h) /\
    targetPosition s1 = scaledTarget ow oh w h (targetPosition s) /\
    isMoving s1 = isMoving s /\
    currentStation s1 = currentStation s /\
    reached s1 = reached s /\
    (shadow s <> None -> shadowAttached s1).
Proof.
  intros ow oh How Hoh. unfold rescalePositions. fold ow oh.
  rewrite !(jsDiv_some _ ow), !(jsDiv_some _ oh) by assumption. cbn [bind].
  set (s0 := set_helloKitty _ s).
  destruct (followShadow_fields s0) as (Hk & _ & Hm & Ht & Hc & Hr & _).
  assert (Hsh : shadow s <> None -> shadowAttached (followShadow s0)).
  { intros H. apply followShadow_attached. exact H. }
  rewrite Ht. unfold s0 at 1. cbn [targetPosition set_helloKitty].
  destruct (targetPosition s) as [t | ] eqn:Hts.
  - rewrite !(jsDiv_some _ ow), !(jsDiv_some _ oh) by assumption. cbn [bind].
    eexists. split; [ reflexivity | ].
    cbn [helloKitty targetPosition isMoving currentStation reached set_targetPosition
         scaledTarget].
    rewrite Hk, Hm, Hc, Hr. repeat split. exact Hsh.
  - eexists. split; [ reflexivity | ].
    rewrite Hk, Hm, Hc, Hr, Ht. unfold s0. cbn [targetPosition set_helloKitty scaledTarget].
    rewrite Hts. repeat split. exact Hsh.
Qed.

Lemma rescalePositions_zero_divisor (w h : R) (s : Scene) :
  orElse (lastWidth s) w = 0 \/ orElse (lastHeight s) h = 0 ->
  rescalePositions w h s = None.
Proof.
  unfold rescalePositions; cbv zeta. intros [H | H]; rewrite H.
  - rewrite jsDiv_none. reflexivity.
  - rewrite jsDiv_none. destruct (jsDiv _ _); reflexivity.
Qed.

Lemma layout_fields (w h : R) (s : Scene) :
  let s2 := layout w h s in
  targetPosition s2 = targetPosition s /\
  isMoving s2 = isMoving s /\
  currentStation s2 = currentStation s /\
  reached s2 = reached s /\
  (isMoving s = true \/ targetPosition s <> None ->
   helloKitty s2 = helloKitty s /\ shadow s2 = shadow s) /\
  (isMoving s = false -> targetPosition s = None ->
   helloKitty s2 = mkPoint (w / 2) (h * (5 / 10)) /\
   (shadow s <> None -> shadowAttached s2)).
Proof.
  cbv zeta. unfold layout, followShadow, shadowAttached; cbv zeta.
  cbn [isMoving targetPosition shadow set_stations set_helloKitty].
  destruct (isMoving s) eqn:Hm; [ cbn; intuition congruence | ].
  destruct (targetPosition s) as [t | ] eqn:Ht; [ cbn; intuition congruence | ].
  destruct (shadow s) as [p | ] eqn:Hs; cbn; intuition congruence.
Qed.

Lemma handleResize_unfold (w h : R) (s s1 : Scene) :
  rescalePositions w h s = Some s1 ->
  handleResize w h s = Some (set_lastSize w h (layout w h s1)).
Proof. unfold handleResize. intros ->. reflexivity. Qed.

(** A resize whose rescale divides by zero. *)
Lemma handleResize_zero_divisor (w h : R) (s : Scene) :
  orElse (lastWidth s) w = 0 \/ orElse (lastHeight s) h = 0 ->
  handleResize w h s
  = match isMoving s, targetPosition s with
    | false, None => Some (set_lastSize w h (layout w h s))
    | _, _ => None
    end.
Proof.
  intros H. unfold handleResize.
  rewrite rescalePositions_zero_divisor by exact H. reflexivity.
Qed.

(** What a successful rescale leaves of the shadow. *)
Lemma rescalePositions_shadow (w h : R) (s s1 : Scene) :
  shadow s <> None -> rescalePositions w h s = Some s1 ->
  shadowAttached s1 /\ shadow s1 <> None.
Proof.
  intros Hsh Hres.
  unfold rescalePositions in Hres; cbv zeta in Hres.
  destruct (jsDiv (px (helloKitty s)) _) as [rx | ]; [ | discriminate ].
  destruct (jsDiv (py (helloKitty s)) _) as [ry | ]; [ | discriminate ].
  cbn [bind] in Hres.
  match type of Hres with context [followShadow ?a] =>
    pose proof (followShadow_attached a Hsh) as Hatt;
    pose proof (followShadow_shadow_some a Hsh) as Hsome;
    destruct (targetPosition (followShadow a)) as [t | ] end.
  - destruct (jsDiv (px t) _); [ | discriminate ].
    destruct (jsDiv (py t) _); [ | discriminate ].
    cbn [bind] in Hres. injection Hres as <-. split; assumption.
  - injection Hres as <-. split; assumption.
Qed.

(** Claim C10 (shadow): after a frame that moves Hello Kitty or snaps her
    to the target, and after every resize, her shadow (when the sprite has
    one) is exactly 40 pixels below her. *)
Theorem shadow_follows_hello_kitty (s : Scene) :
  shadow s <> None ->
  (forall delta, isMoving s = true -> targetPosition s <> None ->
     shadowAttached (update delta s)) /\
  (forall w h s', handleResize w h s = Some s' -> shadowAttached s').
Proof.
  intros Hsh. split.
  - intros delta Hm Ht. unfold update, moveHelloKittyToTarget. rewrite Hm.
    destruct (targetPosition s) as [t | ]; [ | contradiction ]. cbv zeta.
    destruct (Rlt_dec _ 5).
    + unfold arriveAtTarget; cbv zeta.
      match goal with |- context [followShadow ?a] =>
        pose proof (followShadow_attached a Hsh) as Hatt;
        destruct (currentStation (followShadow a)) end; exact Hatt.
    + unfold advanceToTarget; cbv zeta.
      match goal with |- context [followShadow ?a] =>
        pose proof (followShadow_attached a Hsh) as Hatt end.
      destruct (Rlt_dec _ _); exact Hatt.
  - intros w h s' H. unfold handleResize in H.
    destruct (rescalePositions w h s) as [s1 | ] eqn:Hres.
    + injection H as <-.
      destruct (rescalePositions_shadow w h s s1 Hsh Hres) as [Hatt1 Hsome1].
      destruct (layout_fields w h s1) as (_ & _ & _ & _ & Hkeep & Hcentre).
      unfold shadowAttached. cbn [shadow helloKitty set_lastSize].
      destruct (isMoving s1) eqn:Hm1.
      * destruct Hkeep as [Hk Hs]; [ left; reflexivity | ]. rewrite Hk, Hs. exact Hatt1.
      * destruct (targetPosition s1) as [t | ] eqn:Ht1.
        -- destruct Hkeep as [Hk Hs]; [ right; discriminate | ].
           rewrite Hk, Hs. exact Hatt1.
        -- destruct Hcentre as [_ Hatt2]; try reflexivity. apply Hatt2, Hsome1.
    + destruct (isMoving s) eqn:Hm; [ discriminate | ].
      destruct (targetPosition s) as [t | ] eqn:Ht; [ discriminate | ].
      injection H as <-.
      destruct (layout_fields w h s) as (_ & _ & _ & _ & _ & Hcentre).
      destruct Hcentre as [_ Hatt]; try assumption.
      unfold shadowAttached. cbn [shadow helloKitty set_lastSize]. apply Hatt, Hsh.
Qed.

Lemma shadow_follows_hello_kitty_witness :
  shadowAttached (update 16 shortWalk) /\
  exists s', handleResize 1024 768 shortWalk = Some s' /\ shadowAttached s'.
Proof.
  assert (Hsh : shadow shortWalk <> None)
    by (unfold shortWalk, kitchen; scene_cbn; discriminate).
  destruct (shadow_follows_hello_kitty shortWalk Hsh) as [H1 H2].
  split.
  - apply H1; [ reflexivity | unfold shortWalk, kitchen; scene_cbn; discriminate ].
  - destruct (rescalePositions_fields 1024 768 shortWalk) as (s1 & Hres & _).
    + unfold shortWalk, kitchen. scene_cbn. rewrite orElse_nonzero; lra.
    + unfold shortWalk, kitchen. scene_cbn. rewrite orElse_nonzero; lra.
    + eexists. split; [ apply handleResize_unfold, Hres | ].
      apply (H2 1024 768). apply handleResize_unfold, Hres.
Defined.

End Resize.

Section ResizeClaims.




(** X22.  Where the guard [lastWidth || width] does its work: a resize
    to a viewport with non-zero width and height never divides by zero;
    on an axis whose recorded old dimension is zero the new dimension is
    both divisor and factor, so Hello Kitty and the stored target keep
    their coordinate on that axis. *)
Theorem resize_unrecorded_size_is_identity (w h : R) (s : Scene) :
  w <> 0 -> h <> 0 ->
  exists s1 s2,
    rescalePositions w h s = Some s1 /\
    handleResize w h s = Some s2 /\
    targetPosition s2 = targetPosition s1 /\
    (isMoving s = true \/ targetPosition s <> None -> helloKitty s2 = helloKitty s1) /\
    (lastWidth s = 0 ->
     px (helloKitty s1) = px (helloKitty s) /\
     option_map px (targetPosition s1) = option_map px (targetPosition s)) /\
    (lastHeight s = 0 ->
     py (helloKitty s1) = py (helloKitty s) /\
     option_map py (targetPosition s1) = option_map py (targetPosition s)) /\
    (lastWidth s = 0 -> lastHeight s = 0 ->
     helloKitty s1 = helloKitty s /\ targetPosition s1 = targetPosition s).
Proof.
  intros Hw Hh.
  assert (How : orElse (lastWidth s) w <> 0).
  { unfold orElse. destruct (Req_dec_T (lastWidth s) 0); assumption. }
  assert (Hoh : orElse (lastHeight s) h <> 0).
  { unfold orElse. destruct (Req_dec_T (lastHeight s) 0); assumption. }
  destruct (rescalePositions_fields w h s How Hoh) as (s1 & Hres & Hk1 & Ht1 & Hm1 & _).
  destruct (layout_fields w h s1) as (Ht2 & _ & _ & _ & Hkeep & _).
  exists s1, (set_lastSize w h (layout w h s1)).
  split; [ exact Hres | ]. split; [ apply handleResize_unfold, Hres | ].
  cbn [targetPosition helloKitty set_lastSize].
  split; [ exact Ht2 | ].
  split.
  { intros [H | H]; apply Hkeep; [ left; congruence | right ].
    rewrite Ht1. destruct (targetPosition s); [ discriminate | contradiction ]. }
  rewrite Hk1, Ht1. cbn [px py].
  split; [ | split ].
  - intros E. rewrite E, orElse_zero. split; [ field; assumption | ].
    destruct (targetPosition s); cbn; [ f_equal; field; assumption | reflexivity ].
  - intros E. rewrite E, orElse_zero. split; [ field; assumption | ].
    destruct (targetPosition s); cbn; [ f_equal; field; assumption | reflexivity ].
  - intros E1 E2. rewrite E1, E2, !orElse_zero. split.
    + destruct (helloKitty s) as [kx ky]. cbn [px py]. apply Point_eq; field; assumption.
    + destruct (targetPosition s) as [[tx ty] | ]; cbn; [ | reflexivity ].
      f_equal. apply Point_eq; field; assumption.
Qed.

Lemma resize_unrecorded_size_is_identity_witness :
  exists s2, handleResize 1024 768 unrecordedWalk = Some s2 /\
             helloKitty s2 = helloKitty unrecordedWalk /\
             targetPosition s2 = targetPosition unrecordedWalk.
Proof.
  assert (Hw : 1024 <> 0) by lra.
  assert (Hh : 768 <> 0) by lra.
  destruct (resize_unrecorded_size_is_identity 1024 768 unrecordedWalk Hw Hh)
    as (s1 & s2 & _ & Hres & Ht2 & Hk2 & _ & _ & Hid).
  destruct Hid as [Hk1 Ht1]; [ reflexivity | reflexivity | ].
  exists s2. split; [ exact Hres | ].
  split; [ rewrite Hk2; [ exact Hk1 | left; reflexivity ] | congruence ].
Defined.

(** At rest, with no target stored, a rescale that divides by zero
    leaves no trace: [layout] puts Hello Kitty back at the centre. *)
Lemma resize_at_rest_is_recentred :
  exists s1 s2,
    handleResize 0 600 kitchen = Some s1 /\
    lastWidth s1 = 0 /\
    rescalePositions 0 500 s1 = None /\
    handleResize 0 500 s1 = Some s2 /\
    helloKitty s2 = mkPoint 0 250 /\
    shadow s2 = Some (mkPoint 0 290).
Proof.
  assert (How : orElse (lastWidth kitchen) 0 <> 0).
  { unfold kitchen. scene_cbn. rewrite orElse_nonzero; lra. }
  assert (Hoh : orElse (lastHeight kitchen) 600 <> 0).
  { unfold kitchen. scene_cbn. rewrite orElse_nonzero; lra. }
  destruct (rescalePositions_fields 0 600 kitchen How Hoh)
    as (s1 & Hres & _ & Ht1 & Hm1 & _ & _ & _).
  change (isMoving kitchen) with false in Hm1.
  change (targetPosition kitchen) with (@None Point) in Ht1.
  cbn [scaledTarget] in Ht1.
  assert (Hsome1 : shadow s1 <> None).
  { apply (rescalePositions_shadow 0 600 kitchen s1); [ | exact Hres ].
    unfold kitchen. scene_cbn. discriminate. }
  destruct (layout_fields 0 600 s1) as (Ht2 & Hm2 & _ & _ & _ & Hcentre1).
  destruct (Hcentre1 Hm1 Ht1) as [_ Hatt1].
  set (s1' := set_lastSize 0 600 (layout 0 600 s1)).
  assert (Hz : orElse (lastWidth s1') 0 = 0) by apply orElse_zero.
  assert (Hm' : isMoving s1' = false).
  { unfold s1'. cbn [isMoving set_lastSize]. congruence. }
  assert (Ht' : targetPosition s1' = None).
  { unfold s1'. cbn [targetPosition set_lastSize]. congruence. }
  assert (Hsh' : shadow s1' <> None).
  { unfold s1'. cbn [shadow set_lastSize]. rewrite (Hatt1 Hsome1). discriminate. }
  exists s1', (set_lastSize 0 500 (layout 0 500 s1')).
  split; [ apply handleResize_unfold, Hres | ].
  split; [ reflexivity | ].
  split; [ apply rescalePositions_zero_divisor; left; exact Hz | ].
  split.
  { rewrite handleResize_zero_divisor by (left; exact Hz). rewrite Hm', Ht'. reflexivity. }
  destruct (layout_fields 0 500 s1') as (_ & _ & _ & _ & _ & Hcentre).
  destruct (Hcentre Hm' Ht') as [Hk Hatt].
  cbn [helloKitty shadow set_lastSize].
  split.
  - rewrite Hk. apply Point_eq; lra.
  - rewrite (Hatt Hsh'), Hk. cbn [px py]. f_equal. apply Point_eq; lra.
Qed.

(** Claim C7 (the rescale has no failure modes), evaluated where the code
    departs from it.  A walk is ordered in the 800 x 600 kitchen and the
    window is narrowed to width 0, which is recorded.  At the next resize
    with width 0 the guard [lastWidth || width] yields 0: the rescale
    divides by it, the x coordinates of Hello Kitty and of the target
    become [NaN] instead of staying as they were, and since a movement has
    been ordered [layout] does not put her back. *)
Theorem resize_divides_by_zero :
  exists s1,
    handleResize 0 600 shortWalk = Some s1 /\
    lastWidth s1 = 0 /\
    isMoving s1 = true /\
    helloKitty s1 = mkPoint 0 300 /\
    targetPosition s1 = Some (mkPoint 0 300) /\
    orElse (lastWidth s1) 0 = 0 /\
    rescalePositions 0 500 s1 = None /\
    handleResize 0 500 s1 = None.
Proof.
  assert (Hm : isMoving shortWalk = true) by reflexivity.
  assert (Hk : helloKitty shortWalk = mkPoint 400 300).
  { unfold shortWalk, kitchen. scene_cbn. apply Point_eq; lra. }
  assert (Ht : targetPosition shortWalk = Some (mkPoint 410 300)).
  { unfold shortWalk, kitchen. scene_cbn. f_equal.
    apply Point_eq; apply Clamp_inside; lra. }
  assert (Elw : orElse (lastWidth shortWalk) 0 = 800).
  { unfold shortWalk, kitchen. scene_cbn. apply orElse_nonzero. lra. }
  assert (Elh : orElse (lastHeight shortWalk) 600 = 600).
  { unfold shortWalk, kitchen. scene_cbn. apply orElse_nonzero. lra. }
  assert (How : orElse (lastWidth shortWalk) 0 <> 0) by (rewrite Elw; lra).
  assert (Hoh : orElse (lastHeight shortWalk) 600 <> 0) by (rewrite Elh; lra).
  destruct (rescalePositions_fields 0 600 shortWalk How Hoh)
    as (s1 & Hres & Hk1 & Ht1 & Hm1 & _).
  rewrite Elw, Elh, Hk in Hk1. rewrite Elw, Elh, Ht in Ht1.
  cbn [px py scaledTarget] in Hk1, Ht1.
  destruct (layout_fields 0 600 s1) as (Ht2 & Hm2 & _ & _ & Hkeep & _).
  destruct Hkeep as [Hk2 _]; [ left; congruence | ].
  set (s1' := set_lastSize 0 600 (layout 0 600 s1)).
  assert (Hz : orElse (lastWidth s1') 0 = 0) by apply orElse_zero.
  assert (Hm' : isMoving s1' = true) by (unfold s1'; cbn [isMoving set_lastSize]; congruence).
  exists s1'.
  split; [ apply handleResize_unfold, Hres | ].
  split; [ reflexivity | ].
  split; [ exact Hm' | ].
  split.
  { unfold s1'. cbn [helloKitty set_lastSize]. rewrite Hk2, Hk1. apply Point_eq; lra. }
  split.
  { unfold s1'. cbn [targetPosition set_lastSize]. rewrite Ht2, Ht1.
    f_equal. apply Point_eq; lra. }
  split; [ exact Hz | ].
  split; [ apply rescalePositions_zero_divisor; left; exact Hz | ].
  rewrite handleResize_zero_divisor by (left; exact Hz). rewrite Hm'. reflexivity.
Qed.

End ResizeClaims.

(** ** Invariants of a session *)

Section Invariants.

Lemma update_targetPosition (delta : R) (s : Scene) :
  targetPosition (update delta s) = targetPosition s.
Proof.
  destruct (isMoving s) eqn:Hm; [ | rewrite update_idle; auto ].
  destruct (targetPosition s) as [t | ] eqn:Ht.
  - destruct (updates_moving [delta] s t Hm Ht) as [H _]. simpl in H. congruence.
  - unfold update. rewrite Hm, Ht. exact Ht.
Qed.

Lemma handleResize_fields (w h : R) (s s' : Scene) :
  handleResize w h s = Some s' ->
  isMoving s' = isMoving s /\
  currentStation s' = currentStation s /\
  reached s' = reached s /\
  (targetPosition s' = None <-> targetPosition s = None) /\
  lastWidth s' = w /\ lastHeight s' = h /\
  (isMoving s = false -> targetPosition s = None ->
   helloKitty s' = mkPoint (w / 2) (h * (5 / 10))).
Proof.
  intros H. unfold handleResize in H.
  destruct (rescalePositions w h s) as [s1 | ] eqn:Hres.
  - injection H as <-.
    assert (How : orElse (lastWidth s) w <> 0).
    { intros E. rewrite rescalePositions_zero_divisor in Hres by (left; exact E).
      discriminate. }
    assert (Hoh : orElse (lastHeight s) h <> 0).
    { intros E. rewrite rescalePositions_zero_divisor in Hres by (right; exact E).
      discriminate. }
    destruct (rescalePositions_fields w h s How Hoh)
      as (s1' & Hres' & _ & Ht1 & Hm1 & Hc1 & Hr1 & _).
    assert (s1' = s1) by congruence. subst s1'.
    destruct (layout_fields w h s1) as (Ht2 & Hm2 & Hc2 & Hr2 & _ & Hcentre).
    cbn [isMoving currentStation reached targetPosition lastWidth lastHeight helloKitty
         set_lastSize].
    assert (Hnone : targetPosition s1 = None <-> targetPosition s = None).
    { rewrite Ht1. destruct (targetPosition s); cbn; split; congruence. }
    repeat split; try congruence.
    + rewrite Ht2. apply Hnone.
    + rewrite Ht2. apply Hnone.
    + intros Hm Ht. apply Hcentre; [ congruence | apply Hnone, Ht ].
  - destruct (isMoving s) eqn:Hm; [ discriminate | ].
    destruct (targetPosition s) as [t | ] eqn:Ht; [ discriminate | ].
    injection H as <-.
    destruct (layout_fields w h s) as (Ht2 & Hm2 & Hc2 & Hr2 & _ & Hcentre).
    cbn [isMoving currentStation reached targetPosition lastWidth lastHeight helloKitty
         set_lastSize].
    repeat split; try congruence.
    intros _ _. apply Hcentre; assumption.
Qed.

(** Every scene of a session is [placed], and binds a station only while
    a movement is under way. *)
Lemma reachable_invariants (s : Scene) :
  reachable s -> placed s /\ boundWhileMoving s.
Proof.
  unfold placed, boundWhileMoving.
  induction 1 as [ w h | st s _ _ | x y s _ _ | delta s _ [IHp IHb]
                 | w h s s' _ [IHp IHb] Hres | w h s _ IH ].
  - split; [ right; right; scene_cbn; reflexivity | scene_cbn; congruence ].
  - destruct (moveToStation_fields st s) as (Hm & Ht & _).
    split; [ left; exact Hm | intros _; split; [ exact Hm | rewrite Ht; discriminate ] ].
  - destruct (moveToPosition_fields x y s) as (Hm & Ht & _).
    split; [ left; exact Hm | intros _; split; [ exact Hm | rewrite Ht; discriminate ] ].
  - destruct (isMoving s) eqn:Hm; [ | rewrite update_idle by exact Hm; rewrite Hm; auto ].
    destruct (targetPosition s) as [t | ] eqn:Ht.
    + destruct (updates_moving [delta] s t Hm Ht) as (Ht' & Hcases). simpl in Ht', Hcases.
      split; [ right; left; rewrite Ht'; discriminate | ].
      destruct Hcases as [ (Hm' & _ & _) | (_ & _ & Hc' & _) ].
      * intros _. split; [ exact Hm' | rewrite Ht'; discriminate ].
      * intros Hb. contradiction.
    + assert (E : update delta s = s) by (unfold update; rewrite Hm, Ht; reflexivity).
      rewrite E, Hm, Ht. auto.
  - destruct (handleResize_fields w h s s' Hres) as (Hm & Hc & _ & Hnone & Hlw & Hlh & Hk).
    rewrite Hm, Hc, Hlw, Hlh. split.
    + destruct (isMoving s) eqn:Em; [ left; reflexivity | ].
      destruct (targetPosition s) as [t | ] eqn:Et.
      * right; left. intros E. apply Hnone in E. discriminate.
      * right; right. apply Hk; reflexivity.
    + intros Hb. destruct (IHb Hb) as [Hm' Ht']. split; [ exact Hm' | ].
      intros E. apply Ht', Hnone, E.
  - exact IH.
Qed.

(** In a session, an order given while Hello Kitty is at rest reports
    nothing when it is free movement: the callback of claims C1 and C2 is
    misplaced only when a station order is superseded. *)
Lemma free_cycle_from_rest_reports_nothing (x y : R) (ds : list R) (s : Scene) :
  reachable s -> isMoving s = false ->
  reached (updates ds (moveToPosition x y s)) = reached s.
Proof.
  intros Hreach Hrest.
  destruct (reachable_invariants s Hreach) as [_ Hb].
  assert (Hc : currentStation s = None).
  { destruct (currentStation s) eqn:E; [ | reflexivity ].
    destruct Hb as [Hm _]; [ rewrite E; discriminate | congruence ]. }
  destruct (free_cycle_reports_pending x y ds s) as [H1 H2].
  unfold pendingCallbacks in H2. rewrite Hc, app_nil_r in H2.
  destruct (isMoving (updates ds (moveToPosition x y s))); auto.
Qed.

End Invariants.

(** ** Convergence *)

(** A moving frame at distance [d >= 5] leaves Hello Kitty at distance
    [|d - step|] from the target. *)
Lemma distanceToTarget_after_advance (delta : R) (s : Scene) (t : Point) :
  isMoving s = true -> targetPosition s = Some t ->
  5 <= distanceToTarget s ->
  isMoving (update delta s) = true /\ targetPosition (update delta s) = Some t /\
  distanceToTarget (update delta s)
  = Rabs (distanceToTarget s - moveSpeed * delta / 1000).
Proof.
  intros Hm Ht Hd.
  rewrite (update_advance delta s t Hm Ht Hd).
  destruct (advanceToTarget_fields delta t s) as (Hk & Hm' & Ht' & _).
  split; [ congruence | ]. split; [ congruence | ].
  unfold distanceToTarget in *. rewrite Ht', Ht in *. rewrite Hk. cbn [px py].
  apply DistanceBetween_after_step. lra.
Qed.

Section BoundedFrames.

(** Frames last at least [lo] and less than 50 ms; the target is [t]. *)
Variable lo : R.
Variable t : Point.
Hypothesis lo_pos : 0 < lo.

Let frameOk (delta : R) : Prop := lo <= delta < 50.

Lemma step_length_bounds (delta : R) :
  frameOk delta ->
  moveSpeed * lo / 1000 <= moveSpeed * delta / 1000 < 10.
Proof. unfold frameOk, moveSpeed. intros [H1 H2]. split; lra. Qed.

(** [S n] frames are enough from any distance below [5 + n * step lo]. *)
Lemma arrival_within (n : nat) :
  forall (ds : list R) (s : Scene),
    Forall frameOk ds ->
    isMoving s = true -> targetPosition s = Some t ->
    distanceToTarget s < 5 + INR n * (moveSpeed * lo / 1000) ->
    (S n <= List.length ds)%nat ->
    isMoving (updates ds s) = false /\ helloKitty (updates ds s) = t.
Proof.
  induction n as [ | n IH ]; intros ds s Hall Hm Ht Hd Hlen;
    (destruct ds as [ | d ds ]; [ simpl in Hlen; lia | ]); simpl.
  - simpl in Hd.
    assert (Hd' : distanceToTarget s < 5) by lra.
    rewrite (update_arrive d s t Hm Ht Hd').
    destruct (arriveAtTarget_fields t s) as (Hk & Hm' & _).
    rewrite updates_idle by exact Hm'. split; assumption.
  - destruct (Rlt_le_dec (distanceToTarget s) 5) as [Hnear | Hfar].
    + rewrite (update_arrive d s t Hm Ht Hnear).
      destruct (arriveAtTarget_fields t s) as (Hk & Hm' & _).
      rewrite updates_idle by exact Hm'. split; assumption.
    + destruct (distanceToTarget_after_advance d s t Hm Ht Hfar) as (Hm1 & Ht1 & Hd1).
      inversion Hall as [ | ? ? Hd_range Hall' ]; subst.
      destruct (step_length_bounds d Hd_range) as [Hs1 Hs2].
      apply IH; try assumption.
      * rewrite Hd1. rewrite S_INR in Hd.
        assert (0 < moveSpeed * lo / 1000) by (unfold moveSpeed; lra).
        assert (0 <= INR n) by apply pos_INR.
        unfold Rabs. destruct (Rcase_abs _); nra.
      * simpl in Hlen. lia.
Qed.

End BoundedFrames.

(** Claim C8, as amended: while every frame is shorter than 50 ms (a step
    below 10 pixels, twice the arrival radius), a frame taken at 5 pixels
    or more from the target brings Hello Kitty strictly closer, to
    distance [|d - step|]; and if the frames also last at least some
    [lo > 0], she arrives, exactly on the target, after finitely many of
    them. *)
Theorem arrival_convergence (lo : R) (s : Scene) (t : Point) :
  0 < lo ->
  isMoving s = true -> targetPosition s = Some t ->
  (forall delta, 0 < delta < 50 -> 5 <= distanceToTarget s ->
     distanceToTarget (update delta s)
       = Rabs (distanceToTarget s - moveSpeed * delta / 1000) /\
     distanceToTarget (update delta s) < distanceToTarget s) /\
  exists N : nat,
    forall ds, Forall (fun delta => lo <= delta < 50) ds ->
               (N <= List.length ds)%nat ->
               isMoving (updates ds s) = false /\ helloKitty (updates ds s) = t.
Proof.
  intros Hlo Hm Ht. split.
  - intros delta Hdelta Hfar.
    destruct (distanceToTarget_after_advance delta s t Hm Ht Hfar) as (_ & _ & Hd1).
    split; [ exact Hd1 | ].
    rewrite Hd1. unfold moveSpeed, Rabs. destruct (Rcase_abs _); lra.
  - set (c := moveSpeed * lo / 1000).
    assert (Hc : 0 < c) by (unfold c, moveSpeed; lra).
    set (r := distanceToTarget s / c).
    destruct (archimed r) as [Hup _].
    assert (Hr : 0 <= r).
    { unfold r. apply Rmult_le_pos.
      - unfold distanceToTarget. rewrite Ht. apply DistanceBetween_nonneg.
      - apply Rlt_le, Rinv_0_lt_compat, Hc. }
    assert (Hz : (0 <= up r)%Z).
    { apply le_IZR. lra. }
    exists (S (Z.to_nat (up r))). intros ds Hall Hlen.
    apply (arrival_within lo t Hlo (Z.to_nat (up r)) ds s); try assumption.
    rewrite INR_IZR_INZ, Z2Nat.id by exact Hz. fold c.
    assert (distanceToTarget s = r * c) by (unfold r; field; lra).
    nra.
Qed.

Lemma shortWalk_fields :
  isMoving shortWalk = true /\
  helloKitty shortWalk = mkPoint 400 300 /\
  targetPosition shortWalk = Some (mkPoint 410 300).
Proof.
  destruct create_800_600 as (Hk & _ & _ & Hw & Hh & _).
  fold kitchen in Hk, Hw, Hh.
  destruct (moveToPosition_fields 410 300 kitchen) as (Hm & Ht & _ & _ & Hk').
  fold shortWalk in Hm, Ht, Hk'.
  rewrite Hw, Hh, !Clamp_inside in Ht by lra.
  repeat split; congruence.
Qed.

Lemma arrival_convergence_witness :
  distanceToTarget (update 16 shortWalk) < distanceToTarget shortWalk /\
  exists N : nat,
    forall ds, Forall (fun delta => 16 <= delta < 50) ds ->
               (N <= List.length ds)%nat ->
               isMoving (updates ds shortWalk) = false /\
               helloKitty (updates ds shortWalk) = mkPoint 410 300.
Proof.
  destruct shortWalk_fields as (Hm & Hk & Ht).
  assert (Hlo : 0 < 16) by lra.
  destruct (arrival_convergence 16 shortWalk (mkPoint 410 300) Hlo Hm Ht)
    as [Hstep Hfin].
  split; [ | exact Hfin ].
  apply Hstep; [ lra | ].
  rewrite (distanceToTarget_at _ _ _ _ _ Hk Ht). apply DistanceBetween_ge_5. lra.
Defined.

Lemma DistanceBetween_level (x1 x2 y : R) :
  DistanceBetween x1 y x2 y = Rabs (x1 - x2).
Proof.
  unfold DistanceBetween; cbv zeta.
  rewrite <- sqrt_Rsqr_abs. f_equal. unfold Rsqr. ring.
Qed.

(** With frames of 100 ms (a step of 20 pixels) the short walk swings
    between 10 pixels left and 10 pixels right of its target. *)
Lemma shortWalk_swings (n : nat) :
  isMoving (updates (repeat 100 n) shortWalk) = true /\
  targetPosition (updates (repeat 100 n) shortWalk) = Some (mkPoint 410 300) /\
  (helloKitty (updates (repeat 100 n) shortWalk) = mkPoint 400 300 \/
   helloKitty (updates (repeat 100 n) shortWalk) = mkPoint 420 300).
Proof.
  destruct shortWalk_fields as (Hm & Hk & Ht).
  induction n as [ | n IH ].
  - simpl. repeat split; try assumption. left; exact Hk.
  - change (repeat 100 (S n)) with (100 :: repeat 100 n).
    rewrite repeat_cons, updates_app. cbn [updates].
    destruct IH as (Hmn & Htn & [Hkn | Hkn]).
    + destruct (update_east 100 _ 400 300 410 Hmn Hkn Htn) as (H1 & H2 & H3 & _);
        [ lra | ].
      repeat split; try assumption. right. rewrite H1.
      apply Point_eq; unfold moveSpeed; lra.
    + destruct (update_west 100 _ 420 300 410 Hmn Hkn Htn) as (H1 & H2 & H3 & _);
        [ lra | ].
      repeat split; try assumption. left. rewrite H1.
      apply Point_eq; unfold moveSpeed; lra.
Qed.

(** Claim C8, as stated, fails.  Hello Kitty stands 10 pixels left of the
    target and the frames last 100 ms, a step of 20 pixels: each frame
    carries her past the target to 10 pixels on the other side, so the
    distance never decreases and she never arrives. *)
Lemma overshoot_never_arrives :
  isMoving shortWalk = true /\
  targetPosition shortWalk = Some (mkPoint 410 300) /\
  0 < 100 /\
  distanceToTarget shortWalk = 10 /\
  helloKitty (update 100 shortWalk) = mkPoint 420 300 /\
  distanceToTarget (update 100 shortWalk) = 10 /\
  forall n, isMoving (updates (repeat 100 n) shortWalk) = true.
Proof.
  destruct shortWalk_fields as (Hm & Hk & Ht).
  destruct (update_east 100 shortWalk 400 300 410 Hm Hk Ht) as (Hk1 & _ & Ht1 & _);
    [ lra | ].
  replace (400 + moveSpeed * 100 / 1000) with 420 in Hk1 by (unfold moveSpeed; lra).
  repeat split; try assumption; try lra.
  - rewrite (distanceToTarget_at _ _ _ _ _ Hk Ht), DistanceBetween_level.
    unfold Rabs. destruct (Rcase_abs _); lra.
  - rewrite (distanceToTarget_at _ _ _ _ _ Hk1 Ht1), DistanceBetween_level.
    unfold Rabs. destruct (Rcase_abs _); lra.
  - intros n. apply (shortWalk_swings n).
Qed.

(** ** Further properties of the movement *)

Section MovementFacts.

Lemma updates_targetPosition (ds : list R) :
  forall s, targetPosition (updates ds s) = targetPosition s.
Proof.
  induction ds as [ | d ds IH ]; intros s; simpl; [ reflexivity | ].
  rewrite IH. apply update_targetPosition.
Qed.

Lemma updates_environment (ds : list R) :
  forall s,
    cameraWidth (updates ds s) = cameraWidth s /\
    cameraHeight (updates ds s) = cameraHeight s /\
    stations (updates ds s) = stations s /\
    lastWidth (updates ds s) = lastWidth s /\
    lastHeight (updates ds s) = lastHeight s /\
    markers (updates ds s) = markers s.
Proof.
  induction ds as [ | d ds IH ]; intros s; simpl; [ repeat split | ].
  destruct (IH (update d s)) as (H1 & H2 & H3 & H4 & H5 & H6).
  destruct (update_environment d s) as (E1 & E2 & E3 & E4 & E5 & E6).
  repeat split; congruence.
Qed.

(** X1.  After a click on a station, any run of frames leaves one of two
    situations: Hello Kitty is still walking, the station is still bound
    and nothing has been reported; or she has stopped on the stored
    target, the station has been reported exactly once and is no longer
    bound. *)
Theorem station_cycle_outcome (st : StationRef) (ds : list R) (s : Scene) :
  (isMoving (updates ds (moveToStation st s)) = true /\
   reached (updates ds (moveToStation st s)) = reached s /\
   currentStation (updates ds (moveToStation st s)) = Some st) \/
  (isMoving (updates ds (moveToStation st s)) = false /\
   reached (updates ds (moveToStation st s)) = reached s ++ [st] /\
   currentStation (updates ds (moveToStation st s)) = None /\
   Some (helloKitty (updates ds (moveToStation st s)))
   = targetPosition (moveToStation st s)).
Proof.
  destruct (moveToStation_fields st s) as (Hm & Ht & Hc & Hr & _).
  destruct (updates_moving ds _ _ Hm Ht) as (_ & [ (H1 & H2 & H3) | (H1 & H2 & H3 & H4) ]).
  - left. repeat split; congruence.
  - right. unfold pendingCallbacks in H2. rewrite Hc, Hr in H2.
    repeat split; congruence.
Qed.

(** X2.  In a session, while Hello Kitty is at rest no station is bound,
    so a click on the floor starts a cycle that reports nothing, however
    many frames follow. *)
Theorem floor_click_at_rest_reports_nothing (x y : R) (ds : list R) (s : Scene) :
  reachable s -> isMoving s = false ->
  currentStation s = None /\
  reached (updates ds (moveToPosition x y s)) = reached s /\
  currentStation (updates ds (moveToPosition x y s)) = None.
Proof.
  intros Hreach Hrest.
  destruct (reachable_invariants s Hreach) as [_ Hb].
  assert (Hc : currentStation s = None).
  { destruct (currentStation s) eqn:E; [ | reflexivity ].
    destruct Hb as [Hm _]; [ rewrite E; discriminate | congruence ]. }
  destruct (moveToPosition_fields x y s) as (Hm & Ht & Hc' & Hr & _).
  destruct (updates_moving ds _ _ Hm Ht) as (_ & [ (H1 & H2 & H3) | (H1 & H2 & H3 & _) ]).
  - repeat split; congruence.
  - unfold pendingCallbacks in H2. rewrite Hc', Hc, app_nil_r in H2.
    repeat split; congruence.
Qed.

Lemma floor_click_at_rest_reports_nothing_witness :
  reached (updates [16; 16; 16] (moveToPosition 100 200 kitchen)) = [].
Proof.
  assert (Hreach : reachable kitchen) by apply reach_create.
  destruct (floor_click_at_rest_reports_nothing 100 200 [16; 16; 16] kitchen Hreach eq_refl)
    as (_ & H & _).
  exact H.
Defined.

(** Where a moving frame puts Hello Kitty. *)
Lemma frame_position (delta : R) (s : Scene) (t : Point) :
  isMoving s = true -> targetPosition s = Some t ->
  5 <= distanceToTarget s ->
  helloKitty (update delta s)
  = mkPoint (px (helloKitty s)
             + (px t - px (helloKitty s))
               * (moveSpeed * delta / 1000 / distanceToTarget s))
            (py (helloKitty s)
             + (py t - py (helloKitty s))
               * (moveSpeed * delta / 1000 / distanceToTarget s)) /\
  helloKitty (update delta s)
  = mkPoint (px (helloKitty s)
             + cos (AngleBetween (px (helloKitty s)) (py (helloKitty s)) (px t) (py t))
               * (moveSpeed * delta / 1000))
            (py (helloKitty s)
             + sin (AngleBetween (px (helloKitty s)) (py (helloKitty s)) (px t) (py t))
               * (moveSpeed * delta / 1000)).
Proof.
  intros Hm Ht Hd.
  rewrite (update_advance delta s t Hm Ht Hd).
  destruct (advanceToTarget_fields delta t s) as (Hk & _).
  split; [ | exact Hk ].
  rewrite Hk.
  set (k := helloKitty s) in *.
  assert (Hd2 : distanceToTarget s
                = sqrt ((px t - px k) * (px t - px k) + (py t - py k) * (py t - py k))).
  { unfold distanceToTarget. rewrite Ht. unfold DistanceBetween; cbv zeta.
    fold k. f_equal. ring. }
  assert (Hnz : px t - px k <> 0 \/ py t - py k <> 0).
  { destruct (Req_dec (px t - px k) 0) as [E1 | E1]; [ | left; exact E1 ].
    destruct (Req_dec (py t - py k) 0) as [E2 | E2]; [ | right; exact E2 ].
    exfalso. rewrite Hd2, E1, E2 in Hd.
    replace (0 * 0 + 0 * 0) with 0 in Hd by ring. rewrite sqrt_0 in Hd. lra. }
  destruct (cos_sin_atan2 (py t - py k) (px t - px k) Hnz) as [Hc Hs].
  fold (AngleBetween (px k) (py k) (px t) (py t)) in Hc, Hs.
  rewrite <- Hd2 in Hc, Hs. rewrite Hc, Hs.
  apply Point_eq; field; lra.
Qed.

(** X3.  A frame taken at 5 pixels or more from the target moves Hello
    Kitty along the straight line to the target, by exactly
    [moveSpeed * delta / 1000] pixels, whatever the viewport. *)
Theorem frame_advances_straight (delta : R) (s : Scene) (t : Point) :
  isMoving s = true -> targetPosition s = Some t ->
  5 <= distanceToTarget s ->
  let step := moveSpeed * delta / 1000 in
  let k := helloKitty s in
  let k' := helloKitty (update delta s) in
  k' = mkPoint (px k + (px t - px k) * (step / distanceToTarget s))
               (py k + (py t - py k) * (step / distanceToTarget s)) /\
  DistanceBetween (px k) (py k) (px k') (py k') = Rabs step.
Proof.
  intros Hm Ht Hd step k k'.
  destruct (frame_position delta s t Hm Ht Hd) as [Hline Htrig].
  split; [ exact Hline | ].
  unfold k'. rewrite Htrig. fold k step. cbn [px py].
  set (angle := AngleBetween (px k) (py k) (px t) (py t)).
  unfold DistanceBetween; cbv zeta.
  rewrite <- sqrt_Rsqr_abs. f_equal.
  pose proof (sin2_cos2 angle) as Hsc. unfold Rsqr in *.
  replace ((px k - (px k + cos angle * step)) * (px k - (px k + cos angle * step)) +
           (py k - (py k + sin angle * step)) * (py k - (py k + sin angle * step)))
    with ((sin angle * sin angle + cos angle * cos angle) * (step * step)) by ring.
  rewrite Hsc. ring.
Qed.

Lemma frame_advances_straight_witness :
  helloKitty (update 100 counterOrder) = mkPoint 400 280 /\
  DistanceBetween 400 300 (px (helloKitty (update 100 counterOrder)))
                          (py (helloKitty (update 100 counterOrder))) = 20.
Proof.
  destruct kitchen_fields as (Hk & Hb & _ & Hw & Hh & _).
  destruct (moveToStation_fields Bancada kitchen) as (Hm1 & Ht1 & _ & _ & Hk1).
  fold counterOrder in Hm1, Ht1, Hk1.
  rewrite Hb, Hw, Hh in Ht1. cbn [px py] in Ht1.
  rewrite !Clamp_inside in Ht1 by lra.
  rewrite Hk in Hk1.
  assert (Hd : distanceToTarget counterOrder = 112).
  { rewrite (distanceToTarget_at _ _ _ _ _ Hk1 Ht1).
    unfold DistanceBetween; cbv zeta.
    replace ((400 - 400) * (400 - 400) + (300 - (108 + 80)) * (300 - (108 + 80)))
      with (112 * 112) by lra.
    apply sqrt_square. lra. }
  assert (Hfar : 5 <= distanceToTarget counterOrder) by (rewrite Hd; lra).
  destruct (frame_advances_straight 100 counterOrder _ Hm1 Ht1 Hfar) as [Hpos Hlen].
  rewrite Hk1, Hd in Hpos. rewrite Hk1 in Hlen. cbn [px py] in Hpos, Hlen.
  split.
  - rewrite Hpos. apply Point_eq; unfold moveSpeed; lra.
  - rewrite Hlen. unfold moveSpeed, Rabs. destruct (Rcase_abs _); lra.
Defined.

End MovementFacts.

Section FacingAndReports.

Lemma advanceToTarget_flipX (delta : R) (t : Point) (s : Scene) :
  flipX (advanceToTarget delta t s) = true <->
  px t < px (helloKitty (advanceToTarget delta t s)).
Proof.
  unfold advanceToTarget; cbv zeta.
  match goal with |- context [followShadow ?a] =>
    destruct (followShadow_fields a) as (Hk & _) end.
  destruct (Rlt_dec _ _) as [Hlt | Hge]; cbn [flipX helloKitty set_flipX].
  - split; [ intros _; exact Hlt | reflexivity ].
  - split; [ discriminate | intros H; contradiction ].
Qed.

(** X4.  The sprite faces where it is going.  After a frame that stops
    short of the target it is flipped exactly when the target is to the
    left of where Hello Kitty was; a frame that lands on the target's
    column leaves it unflipped; a frame that overshoots flips it the other
    way round. *)
Theorem facing_follows_target (delta : R) (s : Scene) (t : Point) :
  isMoving s = true -> targetPosition s = Some t ->
  5 <= distanceToTarget s ->
  let step := moveSpeed * delta / 1000 in
  (step < distanceToTarget s ->
   (flipX (update delta s) = true <-> px t < px (helloKitty s))) /\
  (step = distanceToTarget s -> flipX (update delta s) = false) /\
  (distanceToTarget s < step ->
   (flipX (update delta s) = true <-> px (helloKitty s) < px t)).
Proof.
  intros Hm Ht Hd step.
  pose proof (advanceToTarget_flipX delta t s) as Hflip.
  destruct (frame_position delta s t Hm Ht Hd) as [Hpos _].
  rewrite (update_advance delta s t Hm Ht Hd) in *.
  rewrite Hpos in Hflip. cbn [px] in Hflip. fold step in Hflip.
  set (d := distanceToTarget s) in *.
  set (kx := px (helloKitty s)) in *.
  assert (Hd0 : 0 < d) by lra.
  assert (Hmul : forall a, a * (step / d) = a * step / d) by (intros; field; lra).
  assert (Hkey : px t < kx + (px t - kx) * (step / d) <-> (px t - kx) * (d - step) < 0).
  { replace (kx + (px t - kx) * (step / d))
      with (px t - (px t - kx) * (d - step) / d) by (field; lra).
    split; intros H.
    - assert (0 < - ((px t - kx) * (d - step)) / d) by lra.
      assert (0 < - ((px t - kx) * (d - step)) / d * d) by (apply Rmult_lt_0_compat; lra).
      replace (- ((px t - kx) * (d - step)) / d * d)
        with (- ((px t - kx) * (d - step))) in * by (field; lra).
      lra.
    - assert (0 < - ((px t - kx) * (d - step)) / d).
      { apply Rdiv_lt_0_compat; lra. }
      lra. }
  split; [ | split ].
  - intros Hshort. rewrite Hflip, Hkey. split; intros H; nra.
  - intros Hexact.
    destruct (flipX (advanceToTarget delta t s)) eqn:E; [ | reflexivity ].
    exfalso. assert (H : (px t - kx) * (d - step) < 0) by (apply Hkey, Hflip; reflexivity).
    rewrite Hexact in H. lra.
  - intros Hover. rewrite Hflip, Hkey. split; intros H; nra.
Qed.

Lemma counterOrder_fields :
  isMoving counterOrder = true /\
  helloKitty counterOrder = mkPoint 400 300 /\
  targetPosition counterOrder = Some (mkPoint 400 188) /\
  distanceToTarget counterOrder = 112.
Proof.
  destruct kitchen_fields as (Hk & Hb & _ & Hw & Hh & _).
  destruct (moveToStation_fields Bancada kitchen) as (Hm1 & Ht1 & _ & _ & Hk1).
  fold counterOrder in Hm1, Ht1, Hk1.
  rewrite Hb, Hw, Hh in Ht1. cbn [px py] in Ht1.
  rewrite !Clamp_inside in Ht1 by lra.
  replace (108 + 80) with 188 in Ht1 by lra.
  rewrite Hk in Hk1.
  repeat split; try assumption.
  rewrite (distanceToTarget_at _ _ _ _ _ Hk1 Ht1).
  unfold DistanceBetween; cbv zeta.
  replace ((400 - 400) * (400 - 400) + (300 - 188) * (300 - 188))
    with (112 * 112) by lra.
  apply sqrt_square. lra.
Qed.

Lemma facing_follows_target_witness :
  flipX (update 100 counterOrder) = false.
Proof.
  destruct counterOrder_fields as (Hm & Hk & Ht & Hd).
  assert (Hfar : 5 <= distanceToTarget counterOrder) by (rewrite Hd; lra).
  destruct (facing_follows_target 100 counterOrder _ Hm Ht Hfar) as (Hshort & _ & _).
  rewrite Hd, Hk in Hshort. cbn [px] in Hshort.
  destruct (flipX (update 100 counterOrder)); [ | reflexivity ].
  exfalso.
  assert (H : 400 < 400) by (apply Hshort; [ unfold moveSpeed; lra | reflexivity ]).
  lra.
Defined.

(** X5.  Between two orders the callback fires at most once: whatever
    frames follow, the log of reported stations is unchanged or has grown
    by exactly the station that was bound. *)
Theorem frames_report_at_most_once (ds : list R) (s : Scene) :
  reached (updates ds s) = reached s \/
  exists st, currentStation s = Some st /\
             isMoving s = true /\
             isMoving (updates ds s) = false /\
             reached (updates ds s) = reached s ++ [st].
Proof.
  destruct (isMoving s) eqn:Hm; [ | left; rewrite updates_idle by exact Hm; reflexivity ].
  destruct (targetPosition s) as [t | ] eqn:Ht.
  - destruct (updates_moving ds s t Hm Ht) as (_ & [ (_ & H2 & _) | (H1 & H2 & _) ]).
    + left. exact H2.
    + unfold pendingCallbacks in H2. destruct (currentStation s) as [st | ].
      * right. exists st. repeat split; assumption.
      * left. rewrite app_nil_r in H2. exact H2.
  - left. clear - Hm Ht. induction ds as [ | d ds IH ]; [ reflexivity | ].
    simpl. unfold update at 1. rewrite Hm, Ht. exact IH.
Qed.

(** In a session a movement under way always has a target. *)
Lemma reachable_moving_has_target (s : Scene) :
  reachable s -> isMoving s = true -> targetPosition s <> None.
Proof.
  induction 1 as [ w h | st s _ _ | x y s _ _ | delta s _ IH
                 | w h s s' _ IH Hres | w h s _ IH ].
  - scene_cbn. discriminate.
  - intros _. destruct (moveToStation_fields st s) as (_ & Ht & _).
    rewrite Ht. discriminate.
  - intros _. destruct (moveToPosition_fields x y s) as (_ & Ht & _).
    rewrite Ht. discriminate.
  - intros Hm. rewrite update_targetPosition. apply IH.
    destruct (isMoving s) eqn:E; [ reflexivity | ].
    rewrite update_idle in Hm by exact E. congruence.
  - destruct (handleResize_fields w h s s' Hres) as (Hm & _ & _ & Hnone & _).
    rewrite Hm. intros Hmov E. apply (IH Hmov), Hnone, E.
  - exact IH.
Qed.

(** X6.  Invariants of a session: a movement under way always has a
    target (the second half of the guard of [update] never decides), a
    station is bound only while a movement is under way, and whenever
    Hello Kitty is at rest no station is bound. *)
Theorem session_movement_invariants (s : Scene) :
  reachable s ->
  (isMoving s = true -> targetPosition s <> None) /\
  (currentStation s <> None -> isMoving s = true) /\
  (isMoving s = false -> currentStation s = None).
Proof.
  intros Hreach.
  destruct (reachable_invariants s Hreach) as [_ Hb].
  split; [ apply reachable_moving_has_target, Hreach | ].
  split.
  - intros H. apply Hb, H.
  - intros Hrest. destruct (currentStation s) eqn:E; [ | reflexivity ].
    destruct Hb as [Hm _]; [ rewrite E; discriminate | congruence ].
Qed.

Lemma session_movement_invariants_witness :
  targetPosition (update 100 counterOrder) <> None /\
  currentStation kitchen = None.
Proof.
  assert (R1 : reachable (update 100 counterOrder)).
  { apply reach_frame. unfold counterOrder. apply reach_station.
    unfold kitchen. apply reach_create. }
  assert (R2 : reachable kitchen) by apply reach_create.
  destruct (session_movement_invariants _ R1) as (H1 & _ & _).
  destruct (session_movement_invariants _ R2) as (_ & _ & H3).
  split; [ apply H1 | apply H3; reflexivity ].
  destruct counterOrder_fields as (Hm & Hk & Ht & Hd).
  destruct (distanceToTarget_after_advance 100 counterOrder _ Hm Ht) as (Hm' & _);
    [ rewrite Hd; lra | exact Hm' ].
Defined.

(** X7.  On a viewport with a walkable rectangle, Hello Kitty never comes
    to rest outside it: when the frames after a click, on the floor or on
    a station, have brought her to a stop, she stands inside
    [[50, width - 50] x [100, height - 50]]. *)
Theorem rest_inside_walkable (ds : list R) (s : Scene) :
  100 <= cameraWidth s -> 150 <= cameraHeight s ->
  (forall x y,
     isMoving (updates ds (moveToPosition x y s)) = false ->
     50 <= px (helloKitty (updates ds (moveToPosition x y s))) <= cameraWidth s - 50 /\
     100 <= py (helloKitty (updates ds (moveToPosition x y s))) <= cameraHeight s - 50) /\
  (forall st,
     isMoving (updates ds (moveToStation st s)) = false ->
     50 <= px (helloKitty (updates ds (moveToStation st s))) <= cameraWidth s - 50 /\
     100 <= py (helloKitty (updates ds (moveToStation st s))) <= cameraHeight s - 50).
Proof.
  intros Hw Hh. split.
  - intros x y Hstop.
    destruct (moveToPosition_fields x y s) as (Hm & Ht & _).
    destruct (updates_moving ds _ _ Hm Ht) as (_ & [ (H1 & _) | (_ & _ & _ & Hk) ]);
      [ congruence | ].
    rewrite Hk. cbn [px py]. split; apply Clamp_range; lra.
  - intros st Hstop.
    destruct (moveToStation_fields st s) as (Hm & Ht & _).
    destruct (updates_moving ds _ _ Hm Ht) as (_ & [ (H1 & _) | (_ & _ & _ & Hk) ]);
      [ congruence | ].
    rewrite Hk. cbn [px py]. split; apply Clamp_range; lra.
Qed.

Lemma rest_inside_walkable_witness :
  50 <= px (helloKitty (update 16 (moveToPosition 400 300 kitchen))) <= 750 /\
  100 <= py (helloKitty (update 16 (moveToPosition 400 300 kitchen))) <= 550.
Proof.
  destruct kitchen_fields as (_ & _ & _ & Hw & Hh & _).
  assert (H1 : 100 <= cameraWidth kitchen) by (rewrite Hw; lra).
  assert (H2 : 150 <= cameraHeight kitchen) by (rewrite Hh; lra).
  destruct (rest_inside_walkable [16] kitchen H1 H2) as [Hfloor _].
  rewrite Hw, Hh in Hfloor.
  replace 750 with (800 - 50) by lra. replace 550 with (600 - 50) by lra.
  apply (Hfloor 400 300).
  destruct floorAtFeet_fields as (Hm & Hk & Ht & _).
  destruct (update_near 16 floorAtFeet 400 300 400 300 Hm Hk Ht) as (_ & Hstop & _);
    [ lra | exact Hstop ].
Defined.

(** X8.  Frames move only Hello Kitty: whatever frames are run, the stored
    target, the stations, the camera, the recorded viewport size and the
    destination markers are as before. *)
Theorem frames_keep_target_and_layout (ds : list R) (s : Scene) :
  targetPosition (updates ds s) = targetPosition s /\
  stations (updates ds s) = stations s /\
  cameraWidth (updates ds s) = cameraWidth s /\
  cameraHeight (updates ds s) = cameraHeight s /\
  lastWidth (updates ds s) = lastWidth s /\
  lastHeight (updates ds s) = lastHeight s /\
  markers (updates ds s) = markers s.
Proof.
  destruct (updates_environment ds s) as (H1 & H2 & H3 & H4 & H5 & H6).
  split; [ apply updates_targetPosition | ].
  repeat split; assumption.
Qed.

End FacingAndReports.

(** ** Further properties of a resize *)

Section ResizeFacts.

Lemma rescale_twice (a l w w' : R) :
  l <> 0 -> w <> 0 -> a / l * w / w * w' = a / l * w'.
Proof. intros Hl Hw. field. split; assumption. Qed.

(** A resize with non-zero recorded size, field by field. *)
Lemma handleResize_record (w h lw lh cw ch : R) (k0 : Point) (f m : bool)
    (sh t : option Point) (st : Stations) (c : option StationRef)
    (r : list StationRef) (mk : list Point) :
  lw <> 0 -> lh <> 0 ->
  handleResize w h (mkScene k0 f sh st lw lh m t c cw ch r mk)
  = let k := match m, t with
             | false, None => mkPoint (w / 2) (h * (5 / 10))
             | _, _ => mkPoint (px k0 / lw * w) (py k0 / lh * h)
             end in
    Some (mkScene k f
            (match sh with
             | Some _ => Some (mkPoint (px k) (py k + 40))
             | None => None
             end)
            (mkStations (mkPoint (w * (25 / 100)) (h * (18 / 100)))
                        (mkPoint (w * (5 / 10)) (h * (18 / 100)))
                        (mkPoint (w * (75 / 100)) (h * (18 / 100)))
                        (mkPoint (w * (78 / 100)) (h * (7 / 10))))
            w h m
            (match t with
             | Some p => Some (mkPoint (px p / lw * w) (py p / lh * h))
             | None => None
             end)
            c cw ch r mk).
Proof.
  intros Hlw Hlh.
  unfold handleResize, rescalePositions; cbv zeta.
  cbn [lastWidth lastHeight helloKitty px py].
  rewrite !(orElse_nonzero lw), !(orElse_nonzero lh) by assumption.
  rewrite !(jsDiv_some _ lw), !(jsDiv_some _ lh) by assumption.
  cbn [bind].
  destruct sh as [p | ], m, t as [[tx ty] | ]; resize_cbn;
    rewrite ?(jsDiv_some _ lw), ?(jsDiv_some _ lh) by assumption; reflexivity.
Qed.

(** Two resizes in a row leave the scene that the second alone would have
    left. *)
Lemma handleResize_twice (w1 h1 w2 h2 : R) (s : Scene) :
  lastWidth s <> 0 -> lastHeight s <> 0 -> w1 <> 0 -> h1 <> 0 ->
  bind (handleResize w1 h1 s) (handleResize w2 h2) = handleResize w2 h2 s.
Proof.
  intros Hlw Hlh Hw1 Hh1.
  destruct s as [k0 f sh st lw lh m t c cw ch r mk].
  cbn [lastWidth lastHeight] in Hlw, Hlh.
  rewrite !(handleResize_record _ _ lw lh) by assumption.
  cbv zeta. cbn [bind].
  rewrite (handleResize_record _ _ w1 h1) by assumption.
  cbv zeta.
  destruct sh as [p | ], m, t as [[tx ty] | ]; cbn [px py];
    rewrite ?rescale_twice by assumption; reflexivity.
Qed.

(** X9.  Resizes compose: with a recorded viewport size, a resize to a
    non-empty viewport followed by a second resize leaves exactly the scene
    the second resize alone would have left; in particular a repeated
    resize to the same size changes nothing. *)
Theorem resizes_compose (w1 h1 w2 h2 : R) (s : Scene) :
  lastWidth s <> 0 -> lastHeight s <> 0 -> w1 <> 0 -> h1 <> 0 ->
  bind (handleResize w1 h1 s) (handleResize w2 h2) = handleResize w2 h2 s /\
  (forall s1, handleResize w1 h1 s = Some s1 -> handleResize w1 h1 s1 = Some s1).
Proof.
  intros Hlw Hlh Hw1 Hh1. split.
  - apply handleResize_twice; assumption.
  - intros s1 H1.
    pose proof (handleResize_twice w1 h1 w1 h1 s Hlw Hlh Hw1 Hh1) as H.
    rewrite H1 in H. exact H.
Qed.

Lemma resizes_compose_witness :
  bind (handleResize 1024 768 shortWalk) (handleResize 640 480)
  = handleResize 640 480 shortWalk.
Proof.
  assert (Hlw : lastWidth shortWalk <> 0) by (unfold shortWalk, kitchen; scene_cbn; lra).
  assert (Hlh : lastHeight shortWalk <> 0) by (unfold shortWalk, kitchen; scene_cbn; lra).
  assert (Hw : 1024 <> 0) by lra.
  assert (Hh : 768 <> 0) by lra.
  destruct (resizes_compose 1024 768 640 480 shortWalk Hlw Hlh Hw Hh) as [H _].
  exact H.
Defined.

(** X10.  A resize away and back is a round trip for a walk under way:
    once a movement has been ordered, resizing to any non-empty viewport
    and then back to the recorded size puts Hello Kitty and the stored
    target exactly where they were. *)
Theorem resize_round_trip (w h : R) (s : Scene) :
  lastWidth s <> 0 -> lastHeight s <> 0 -> w <> 0 -> h <> 0 ->
  isMoving s = true \/ targetPosition s <> None ->
  exists s2,
    bind (handleResize w h s) (handleResize (lastWidth s) (lastHeight s)) = Some s2 /\
    helloKitty s2 = helloKitty s /\
    targetPosition s2 = targetPosition s /\
    lastWidth s2 = lastWidth s /\ lastHeight s2 = lastHeight s.
Proof.
  intros Hlw Hlh Hw Hh Hordered.
  rewrite handleResize_twice by assumption.
  assert (How : orElse (lastWidth s) (lastWidth s) <> 0)
    by (rewrite orElse_nonzero; assumption).
  assert (Hoh : orElse (lastHeight s) (lastHeight s) <> 0)
    by (rewrite orElse_nonzero; assumption).
  destruct (rescalePositions_fields _ _ s How Hoh) as (s1 & Hres & Hk1 & Ht1 & Hm1 & _).
  rewrite !orElse_nonzero in Hk1, Ht1 by assumption.
  destruct (layout_fields (lastWidth s) (lastHeight s) s1) as (Ht2 & _ & _ & _ & Hkeep & _).
  exists (set_lastSize (lastWidth s) (lastHeight s) (layout (lastWidth s) (lastHeight s) s1)).
  split; [ apply handleResize_unfold, Hres | ].
  cbn [helloKitty targetPosition lastWidth lastHeight set_lastSize].
  assert (Ht1' : targetPosition s1 = targetPosition s).
  { rewrite Ht1. destruct (targetPosition s) as [[tx ty] | ]; cbn; [ | reflexivity ].
    f_equal. apply Point_eq; field; assumption. }
  destruct Hkeep as [Hk2 _].
  { destruct Hordered as [H | H]; [ left; congruence | right; congruence ]. }
  repeat split; try congruence.
  rewrite Hk2, Hk1. destruct (helloKitty s) as [kx ky]. cbn [px py].
  apply Point_eq; field; assumption.
Qed.

Lemma resize_round_trip_witness :
  exists s2,
    bind (handleResize 1024 768 shortWalk) (handleResize 800 600) = Some s2 /\
    helloKitty s2 = mkPoint 400 300 /\
    targetPosition s2 = Some (mkPoint 410 300).
Proof.
  assert (Elw : lastWidth shortWalk = 800) by reflexivity.
  assert (Elh : lastHeight shortWalk = 600) by reflexivity.
  assert (Hlw : lastWidth shortWalk <> 0) by (rewrite Elw; lra).
  assert (Hlh : lastHeight shortWalk <> 0) by (rewrite Elh; lra).
  assert (Hw : 1024 <> 0) by lra.
  assert (Hh : 768 <> 0) by lra.
  destruct (resize_round_trip 1024 768 shortWalk Hlw Hlh Hw Hh (or_introl eq_refl))
    as (s2 & Hres & Hk & Ht & _).
  rewrite Elw, Elh in Hres.
  destruct shortWalk_fields as (_ & Hk0 & Ht0).
  exists s2. repeat split; congruence.
Defined.

(** X11.  A resize never starts, stops or reports a movement, and neither
    binds nor unbinds a station; it keeps a stored target stored and an
    absent target absent, and records the new size. *)
Theorem resize_keeps_movement_state (w h : R) (s s' : Scene) :
  handleResize w h s = Some s' ->
  isMoving s' = isMoving s /\
  currentStation s' = currentStation s /\
  reached s' = reached s /\
  (targetPosition s' = None <-> targetPosition s = None) /\
  lastWidth s' = w /\ lastHeight s' = h.
Proof.
  intros H.
  destruct (handleResize_fields w h s s' H) as (H1 & H2 & H3 & H4 & H5 & H6 & _).
  repeat split; try assumption; apply H4.
Qed.

Lemma resize_keeps_movement_state_witness :
  exists s', handleResize 1024 768 counterOrder = Some s' /\
             isMoving s' = true /\ currentStation s' = Some Bancada /\
             reached s' = [] /\ lastWidth s' = 1024.
Proof.
  assert (How : orElse (lastWidth counterOrder) 1024 <> 0).
  { unfold counterOrder, kitchen. scene_cbn. rewrite orElse_nonzero; lra. }
  assert (Hoh : orElse (lastHeight counterOrder) 768 <> 0).
  { unfold counterOrder, kitchen. scene_cbn. rewrite orElse_nonzero; lra. }
  destruct (rescalePositions_fields 1024 768 counterOrder How Hoh) as (s1 & Hres & _).
  pose proof (handleResize_unfold _ _ _ _ Hres) as H.
  destruct (resize_keeps_movement_state _ _ _ _ H) as (H1 & H2 & H3 & _ & H5 & _).
  eexists. split; [ exact H | ].
  rewrite H1, H2, H3, H5. repeat split.
Defined.

End ResizeFacts.

(** ** Stations, clicks and decoration *)

Section StationFacts.

Lemma layout_stations (w h : R) (s : Scene) (st : StationRef) :
  stationPosition st (stations (layout w h s)) = layoutAnchor w h st /\
  cameraWidth (layout w h s) = cameraWidth s /\
  cameraHeight (layout w h s) = cameraHeight s.
Proof.
  unfold layout, followShadow; cbv zeta.
  cbn [isMoving targetPosition shadow set_stations set_helloKitty].
  destruct (isMoving s); [ destruct st; repeat split | ].
  destruct (targetPosition s); [ destruct st; repeat split | ].
  destruct (shadow s); destruct st; repeat split.
Qed.

(** X12.  On a viewport at least 228 pixels wide and 434 high
    ([22 w >= 5000], [3 h >= 1300]) every station can be reached from the
    front: after [layout], a click on any of the four stations stores as
    target the point exactly 80 pixels below the station's anchor. *)
Theorem station_orders_reach_the_front (w h : R) (s : Scene) (st : StationRef) :
  cameraWidth s = w -> cameraHeight s = h ->
  5000 <= 22 * w -> 1300 <= 3 * h ->
  targetPosition (moveToStation st (layout w h s))
  = Some (mkPoint (px (layoutAnchor w h st)) (py (layoutAnchor w h st) + 80)).
Proof.
  intros Hcw Hch Hw Hh.
  destruct (layout_stations w h s st) as (Hp & Ew & Eh).
  destruct (moveToStation_fields st (layout w h s)) as (_ & Ht & _).
  rewrite Ht, Hp, Ew, Eh, Hcw, Hch.
  f_equal. apply Point_eq; apply Clamp_inside; destruct st; cbn [layoutAnchor px py]; lra.
Qed.

Lemma station_orders_reach_the_front_witness :
  targetPosition (moveToStation Forno (layout 800 600 kitchen))
  = Some (mkPoint 600 188).
Proof.
  assert (H1 : 5000 <= 22 * 800) by lra.
  assert (H2 : 1300 <= 3 * 600) by lra.
  rewrite (station_orders_reach_the_front 800 600 kitchen Forno eq_refl eq_refl H1 H2).
  cbn [layoutAnchor px py]. f_equal. apply Point_eq; lra.
Defined.

(** X13.  On a lower viewport (between 150 and 433 pixels high) the front
    of the table is not walkable: a click on the table stores a target on
    the bottom edge of the walkable rectangle, less than 80 pixels below
    the table. *)
Theorem table_order_is_clamped_on_low_viewport (w h : R) (s : Scene) :
  cameraWidth s = w -> cameraHeight s = h ->
  5000 <= 22 * w -> 150 <= h -> 3 * h < 1300 ->
  targetPosition (moveToStation Mesa (layout w h s))
  = Some (mkPoint (px (layoutAnchor w h Mesa)) (h - 50)) /\
  h - 50 < py (layoutAnchor w h Mesa) + 80.
Proof.
  intros Hcw Hch Hw Hlo Hhi.
  destruct (layout_stations w h s Mesa) as (Hp & Ew & Eh).
  destruct (moveToStation_fields Mesa (layout w h s)) as (_ & Ht & _).
  rewrite Ht, Hp, Ew, Eh, Hcw, Hch. cbn [layoutAnchor px py].
  split; [ | lra ].
  f_equal. apply Point_eq; [ apply Clamp_inside | apply Clamp_above ]; lra.
Qed.

Lemma table_order_is_clamped_on_low_viewport_witness :
  targetPosition (moveToStation Mesa (layout 320 240 (create 320 240)))
  = Some (mkPoint (320 * (78 / 100)) (240 - 50)).
Proof.
  assert (H1 : 5000 <= 22 * 320) by lra.
  assert (H2 : 150 <= 240) by lra.
  assert (H3 : 3 * 240 < 1300) by lra.
  destruct (table_order_is_clamped_on_low_viewport 320 240 (create 320 240)
              eq_refl eq_refl H1 H2 H3) as [H _].
  exact H.
Defined.

Lemma RectangleContains_true (r : Rectangle) (x y : R) :
  0 < rectWidth r -> 0 < rectHeight r ->
  rectX r <= x <= rectX r + rectWidth r ->
  rectY r <= y <= rectY r + rectHeight r ->
  RectangleContains r x y = true.
Proof.
  intros Hw Hh [Hx1 Hx2] [Hy1 Hy2]. unfold RectangleContains, Rleb.
  destruct (Rle_dec (rectWidth r) 0); [ lra | ].
  destruct (Rle_dec (rectHeight r) 0); [ lra | ].
  repeat match goal with |- context [Rle_dec ?a ?b] =>
    destruct (Rle_dec a b); [ | contradiction ] end.
  reflexivity.
Qed.

Lemma RectangleContains_false (r : Rectangle) (x y : R) :
  x < rectX r \/ rectX r + rectWidth r < x \/
  y < rectY r \/ rectY r + rectHeight r < y ->
  RectangleContains r x y = false.
Proof.
  intros H. unfold RectangleContains, Rleb.
  destruct (Rle_dec (rectWidth r) 0); [ reflexivity | ].
  destruct (Rle_dec (rectHeight r) 0); [ reflexivity | ].
  destruct (Rle_dec (rectX r) x); [ | reflexivity ].
  destruct (Rle_dec x (rectX r + rectWidth r)); [ | reflexivity ].
  destruct (Rle_dec (rectY r) y); [ | reflexivity ].
  destruct (Rle_dec y (rectY r + rectHeight r)); [ | reflexivity ].
  exfalso. lra.
Qed.


Lemma existsb_allStations (f : StationRef -> bool) (st : StationRef) :
  f st = true -> existsb f allStations = true.
Proof.
  intros H. apply existsb_exists. exists st. split; [ | exact H ].
  destruct st; simpl; auto.
Qed.



(** X15.  Where a press on the background counts, whatever sprites are
    enlarged by hovering: within 50 pixels across and 40 pixels up or down
    of a station's position the press is ignored; more than 55 pixels
    away, across or up and down, from every station it orders a walk to
    the pressed point. *)
Theorem background_press_regions (hovered : StationRef -> bool) (x y : R) (s : Scene) :
  (forall st,
     Rabs (x - px (stationPosition st (stations s))) <= 50 ->
     Rabs (y - py (stationPosition st (stations s))) <= 40 ->
     onPointerDown hovered x y s = s) /\
  ((forall st,
      55 < Rabs (x - px (stationPosition st (stations s))) \/
      55 < Rabs (y - py (stationPosition st (stations s)))) ->
   onPointerDown hovered x y s = moveToPosition x y s).
Proof.
  split.
  - intros st Hx Hy.
    unfold onPointerDown; cbv zeta.
    rewrite (existsb_allStations _ st); [ reflexivity | ].
    unfold Rabs in Hx, Hy.
    destruct (Rcase_abs (x - _)) in Hx; destruct (Rcase_abs (y - _)) in Hy;
    (apply RectangleContains_true; unfold getBounds; cbv zeta;
      cbn [rectX rectY rectWidth rectHeight]; unfold textureWidth, spriteScale;
      destruct (hovered st), st; cbn [textureHeight]; lra).
  - intros Hfar.
    unfold onPointerDown; cbv zeta.
    assert (Hout : forall st, RectangleContains (getBounds hovered st s) x y = false).
    { intros st. apply RectangleContains_false.
      unfold getBounds; cbv zeta; cbn [rectX rectY rectWidth rectHeight].
      unfold textureWidth, spriteScale.
      destruct (Hfar st) as [H | H]; unfold Rabs in H; destruct (Rcase_abs _) in H;
        destruct (hovered st), st; cbn [textureHeight]; lra. }
    unfold allStations. cbn [existsb]. rewrite !Hout. reflexivity.
Qed.

Lemma background_press_regions_witness :
  onPointerDown (fun _ => false) 400 300 kitchen = moveToPosition 400 300 kitchen /\
  onPointerDown (fun _ => false) 610 400 kitchen = kitchen.
Proof.
  destruct (background_press_regions (fun _ => false) 400 300 kitchen) as [_ Hfar].
  destruct (background_press_regions (fun _ => false) 610 400 kitchen) as [Hnear _].
  split.
  - apply Hfar. intros st. right.
    unfold Rabs. destruct (Rcase_abs _) as [Hneg | Hpos];
      destruct st; unfold kitchen in *; revert Hneg || revert Hpos; scene_cbn; lra.
  - apply (Hnear Mesa); unfold Rabs; destruct (Rcase_abs _);
      unfold kitchen in *; scene_cbn; lra.
Defined.

(** X16.  Labels and icons: [layout] keeps each label straight above its
    station and each icon as far below, at a tenth of the height but never
    less than 50 nor more than 90 pixels; the labels of the top row are on
    screen exactly when the viewport is at least 2500/9 (about 278) pixels
    high. *)
Theorem labels_and_icons_offsets (w h : R) (st : StationRef) :
  px (labelPosition w h st) = px (layoutAnchor w h st) /\
  px (iconPosition w h st) = px (layoutAnchor w h st) /\
  py (layoutAnchor w h st) - py (labelPosition w h st) = labelOffset h /\
  py (iconPosition w h st) - py (layoutAnchor w h st) = labelOffset h /\
  50 <= labelOffset h <= 90 /\
  (500 <= h <= 900 -> labelOffset h = h / 10) /\
  (0 <= py (labelPosition w h Armario) <-> 2500 <= 9 * h).
Proof.
  assert (Hb : 50 <= labelOffset h <= 90).
  { unfold labelOffset. split; [ apply Rmax_l | ].
    apply Rmax_lub; [ lra | apply Rmin_l ]. }
  destruct Hb as [Hb1 Hb2].
  unfold labelPosition, iconPosition. cbn [px py].
  repeat split; try lra; try assumption.
  - intros [H1 H2]. unfold labelOffset.
    rewrite Rmin_right by lra. rewrite Rmax_right by lra. lra.
  - intros H. cbn [layoutAnchor py] in H. unfold labelOffset in H.
    destruct (Rle_dec 90 (h * (1 / 10))) as [Hbig | Hsmall].
    + lra.
    + rewrite Rmin_right in H by lra.
      destruct (Rle_dec 50 (h * (1 / 10))).
      * lra.
      * rewrite Rmax_left in H by lra. lra.
  - intros H. cbn [layoutAnchor py]. unfold labelOffset.
    destruct (Rle_dec 90 (h * (1 / 10))) as [Hbig | Hsmall].
    + rewrite Rmin_left by lra. rewrite Rmax_right by lra. lra.
    + rewrite Rmin_right by lra.
      destruct (Rle_dec 50 (h * (1 / 10))).
      * rewrite Rmax_right by lra. lra.
      * rewrite Rmax_left by lra. lra.
Qed.

Lemma labels_and_icons_offsets_witness :
  labelOffset 600 = 600 / 10 /\ 0 <= py (labelPosition 800 600 Armario).
Proof.
  destruct (labels_and_icons_offsets 800 600 Armario)
    as (_ & _ & _ & _ & _ & Hmid & Hon).
  split; [ apply Hmid; lra | apply Hon; lra ].
Defined.

End StationFacts.

(** ** The loading bar and the window *)

Section LoadingBar.

(** X17.  The loading bar stays inside its border: for a progress between
    0 and 1 the fill starts 5 pixels inside the border on the left, top
    and bottom, never passes 5 pixels before its right edge, and reaches
    that line exactly at full progress; the percentage printed is a whole
    number between 0 and 100. *)
Theorem loading_bar_stays_in_border (w h value : R) :
  0 <= value <= 1 ->
  let border := loadingBarBorder w h in
  let fill := loadingBarFill w h value in
  rectX fill = rectX border + 5 /\
  rectY fill = rectY border + 5 /\
  rectY fill + rectHeight fill = rectY border + rectHeight border - 5 /\
  0 <= rectWidth fill /\
  rectX fill + rectWidth fill <= rectX border + rectWidth border - 5 /\
  (value = 1 <-> rectX fill + rectWidth fill = rectX border + rectWidth border - 5) /\
  (0 <= progressPercent value <= 100)%Z.
Proof.
  intros [H0 H1]. cbv zeta.
  unfold loadingBarBorder, loadingBarFill, progressPercent.
  cbn [rectX rectY rectWidth rectHeight].
  repeat split; try lra.
  - apply Zfloor_lub. simpl. lra.
  - apply le_IZR. destruct (Zfloor_bound (value * 100)) as [Hlo _]. lra.
Qed.

Lemma loading_bar_stays_in_border_witness :
  rectX (loadingBarFill 800 600 (1 / 2)) = rectX (loadingBarBorder 800 600) + 5 /\
  rectX (loadingBarFill 800 600 (1 / 2)) + rectWidth (loadingBarFill 800 600 (1 / 2))
  <= rectX (loadingBarBorder 800 600) + rectWidth (loadingBarBorder 800 600) - 5 /\
  (0 <= progressPercent (1 / 2) <= 100)%Z.
Proof.
  assert (Hv : 0 <= 1 / 2 <= 1) by lra.
  destruct (loading_bar_stays_in_border 800 600 (1 / 2) Hv)
    as (H1 & _ & _ & _ & H5 & _ & H7).
  repeat split; try assumption; apply H7.
Defined.

End LoadingBar.

Section WindowResizes.

Lemma scheduleResize_debounced (b : Browser) :
  debounced b -> debounced (scheduleResize b).
Proof.
  unfold debounced, scheduleResize. intros H.
  destruct (resizeHandle b) as [hd | ] eqn:E.
  - rewrite E. exact H.
  - cbn [resizeHandle frameRequests]. rewrite H. reflexivity.
Qed.

Lemma animationFrame_debounced (b : Browser) :
  debounced b ->
  resizeHandle (animationFrame b) = None /\
  frameRequests (animationFrame b) = [] /\
  scaleResizes (animationFrame b)
  = scaleResizes b ++ match resizeHandle b with
                      | Some _ => [(innerWidth b, innerHeight b)]
                      | None => []
                      end.
Proof.
  unfold debounced, animationFrame. intros H.
  destruct (resizeHandle b) as [hd | ]; rewrite H; cbn.
  - repeat split.
  - rewrite app_nil_r. repeat split.
Qed.

Lemma browserStep_debounced (b : Browser) (e : BrowserEvent) :
  debounced b -> debounced (browserStep b e).
Proof.
  intros H. destruct e as [w h | | ]; cbn [browserStep].
  - unfold windowResized. apply scheduleResize_debounced. exact H.
  - apply scheduleResize_debounced, H.
  - destruct (animationFrame_debounced b H) as (H1 & H2 & _).
    unfold debounced. rewrite H1. exact H2.
Qed.

(** X18.  Resize requests are debounced: whatever resizes, timers and
    animation frames occur, at most one animation-frame request is pending
    at any time, and it is the one [resizeHandle] holds. *)
Theorem resize_requests_are_debounced (evs : list BrowserEvent) (b : Browser) :
  debounced b ->
  debounced (fold_left browserStep evs b) /\
  (List.length (frameRequests (fold_left browserStep evs b)) <= 1)%nat.
Proof.
  intros H.
  assert (Hd : debounced (fold_left browserStep evs b)).
  { revert b H. induction evs as [ | e evs IH ]; intros b H; cbn [fold_left].
    - exact H.
    - apply IH, browserStep_debounced, H. }
  split; [ exact Hd | ].
  unfold debounced in Hd.
  destruct (resizeHandle (fold_left browserStep evs b)); rewrite Hd; simpl; lia.
Qed.

Lemma resize_requests_are_debounced_witness :
  (List.length
     (frameRequests
        (fold_left browserStep [WindowResize 640 480; TimerFires; WindowResize 800 600]
           (mkBrowser 1024 768 None [] 1 []))) <= 1)%nat.
Proof.
  assert (H0 : debounced (mkBrowser 1024 768 None [] 1 [])) by reflexivity.
  destruct (resize_requests_are_debounced
              [WindowResize 640 480; TimerFires; WindowResize 800 600] _ H0) as [_ H].
  exact H.
Defined.

Lemma burst_pending (evs : list BrowserEvent) :
  forall b,
    forallb (fun e => negb (isFrame e)) evs = true ->
    debounced b ->
    resizeHandle b <> None \/ evs <> [] ->
    resizeHandle (fold_left browserStep evs b) <> None /\
    debounced (fold_left browserStep evs b) /\
    scaleResizes (fold_left browserStep evs b) = scaleResizes b.
Proof.
  induction evs as [ | e evs IH ]; intros b Hno Hd Hsome; cbn [fold_left].
  - destruct Hsome as [H | H]; [ | contradiction ]. repeat split; assumption.
  - cbn [forallb] in Hno. apply andb_prop in Hno. destruct Hno as [He Hno].
    assert (Hstep : resizeHandle (browserStep b e) <> None /\
                    scaleResizes (browserStep b e) = scaleResizes b).
    { destruct e as [w h | | ]; cbn [browserStep isFrame negb] in *; try discriminate.
      - unfold windowResized, scheduleResize. cbn [resizeHandle].
        destruct (resizeHandle b); cbn; split; try discriminate; reflexivity.
      - unfold scheduleResize.
        destruct (resizeHandle b) eqn:E; cbn; [ rewrite E | ];
          split; try discriminate; reflexivity. }
    destruct Hstep as [Hh Hs].
    destruct (IH (browserStep b e) Hno (browserStep_debounced b e Hd) (or_introl Hh))
      as (H1 & H2 & H3).
    repeat split; try assumption. congruence.
Qed.

(** X19.  A burst of resizes costs one resize of the game: when nothing is
    pending, any non-empty run of window resizes and timer firings
    followed by an animation frame calls [game.scale.resize] exactly once,
    with the size the window has at that frame, and leaves nothing
    pending; a frame with nothing pending calls nothing. *)
Theorem resize_burst_resizes_once (evs : list BrowserEvent) (b : Browser) :
  debounced b -> resizeHandle b = None ->
  forallb (fun e => negb (isFrame e)) evs = true ->
  scaleResizes (animationFrame b) = scaleResizes b /\
  (evs <> [] ->
   scaleResizes (animationFrame (fold_left browserStep evs b))
   = scaleResizes b ++ [(innerWidth (fold_left browserStep evs b),
                         innerHeight (fold_left browserStep evs b))] /\
   resizeHandle (animationFrame (fold_left browserStep evs b)) = None /\
   frameRequests (animationFrame (fold_left browserStep evs b)) = []).
Proof.
  intros Hd Hnone Hno. split.
  - destruct (animationFrame_debounced b Hd) as (_ & _ & H).
    rewrite H, Hnone. apply app_nil_r.
  - intros Hne.
    destruct (burst_pending evs b Hno Hd (or_intror Hne)) as (H1 & H2 & H3).
    destruct (animationFrame_debounced _ H2) as (A1 & A2 & A3).
    repeat split; try assumption.
    rewrite A3, H3.
    destruct (resizeHandle (fold_left browserStep evs b)); [ reflexivity | contradiction ].
Qed.

Lemma resize_burst_resizes_once_witness :
  scaleResizes
    (animationFrame
       (fold_left browserStep [WindowResize 640 480; TimerFires; WindowResize 800 600]
          (mkBrowser 1024 768 None [] 1 [])))
  = [(800, 600)].
Proof.
  assert (H0 : debounced (mkBrowser 1024 768 None [] 1 [])) by reflexivity.
  destruct (resize_burst_resizes_once
              [WindowResize 640 480; TimerFires; WindowResize 800 600] _ H0 eq_refl eq_refl)
    as [_ H].
  destruct H as (H & _ & _); [ discriminate | ].
  rewrite H. reflexivity.
Defined.

End WindowResizes.

(** ** Orders in flight *)

Section OrdersInFlight.

(** X20.  A bound on the walk: with frames of at least [lo] and less than
    50 ms, from a distance below [5 + n * (moveSpeed * lo / 1000)] any
    [n + 1] frames bring Hello Kitty to rest exactly on the target, and
    what has been reported by then is the station that was bound, if
    any. *)
Theorem arrival_frame_bound (lo : R) (n : nat) (ds : list R) (s : Scene) (t : Point) :
  0 < lo ->
  Forall (fun delta => lo <= delta < 50) ds ->
  isMoving s = true -> targetPosition s = Some t ->
  distanceToTarget s < 5 + INR n * (moveSpeed * lo / 1000) ->
  (S n <= List.length ds)%nat ->
  isMoving (updates ds s) = false /\
  helloKitty (updates ds s) = t /\
  reached (updates ds s) = reached s ++ pendingCallbacks s /\
  currentStation (updates ds s) = None.
Proof.
  intros Hlo Hall Hm Ht Hd Hlen.
  destruct (arrival_within lo t Hlo n ds s Hall Hm Ht Hd Hlen) as [Hstop Hk].
  destruct (updates_moving ds s t Hm Ht) as (_ & [ (H1 & _) | (_ & H2 & H3 & _) ]);
    [ congruence | ].
  repeat split; assumption.
Qed.

Lemma arrival_frame_bound_witness :
  isMoving (updates [16; 16; 16] shortWalk) = false /\
  helloKitty (updates [16; 16; 16] shortWalk) = mkPoint 410 300.
Proof.
  destruct shortWalk_fields as (Hm & Hk & Ht).
  assert (Hlo : 0 < 16) by lra.
  assert (Hall : Forall (fun delta => 16 <= delta < 50) [16; 16; 16]).
  { repeat constructor; lra. }
  assert (Hd : distanceToTarget shortWalk < 5 + INR 2 * (moveSpeed * 16 / 1000)).
  { rewrite (distanceToTarget_at _ _ _ _ _ Hk Ht), DistanceBetween_level.
    unfold moveSpeed, Rabs. simpl INR. destruct (Rcase_abs _); lra. }
  assert (Hlen : (3 <= List.length [16; 16; 16])%nat) by (simpl; lia).
  destruct (arrival_frame_bound 16 2 [16; 16; 16] shortWalk _ Hlo Hall Hm Ht Hd Hlen)
    as (H1 & H2 & _).
  split; assumption.
Defined.

(** X21.  The newest order wins: whatever was going on before, after a
    click on the floor the stored target is the clamped point of that
    click and stays so through the frames that follow, and when Hello
    Kitty stops she stands on it. *)
Theorem newest_order_wins (x y : R) (ds : list R) (s : Scene) :
  targetPosition (updates ds (moveToPosition x y s))
  = Some (mkPoint (Clamp x 50 (cameraWidth s - 50))
                  (Clamp y 100 (cameraHeight s - 50))) /\
  (isMoving (updates ds (moveToPosition x y s)) = false ->
   helloKitty (updates ds (moveToPosition x y s))
   = mkPoint (Clamp x 50 (cameraWidth s - 50))
             (Clamp y 100 (cameraHeight s - 50))).
Proof.
  destruct (moveToPosition_fields x y s) as (Hm & Ht & _).
  destruct (updates_moving ds _ _ Hm Ht) as (Ht' & Hcases).
  split; [ exact Ht' | ].
  intros Hstop. destruct Hcases as [ (H1 & _) | (_ & _ & _ & Hk) ];
    [ congruence | exact Hk ].
Qed.

Lemma newest_order_wins_witness :
  helloKitty (update 16 counterThenFloor) = mkPoint 400 282.
Proof.
  destruct (newest_order_wins 400 282 [16] (update 100 counterOrder)) as [_ H].
  fold counterThenFloor in H. cbn [updates] in H.
  destruct (update_environment 100 counterOrder) as (E1 & E2 & _).
  rewrite H.
  - rewrite E1, E2. apply Point_eq; apply Clamp_inside;
      unfold counterOrder, kitchen; scene_cbn; lra.
  - destruct counterOrder_fields as (Hm & Hk & Ht & Hd).
    destruct (update_up 100 counterOrder 400 300 188 Hm Hk Ht) as (Hk2 & _); [ lra | ].
    replace (300 - moveSpeed * 100 / 1000) with 280 in Hk2 by (unfold moveSpeed; lra).
    destruct (moveToPosition_in_kitchen 400 282 (update 100 counterOrder))
      as (Hm3 & Ht3 & _ & _ & Hk3);
      [ rewrite E1; reflexivity | rewrite E2; reflexivity | lra | lra | ].
    fold counterThenFloor in Hm3, Ht3, Hk3. rewrite Hk2 in Hk3.
    destruct (update_near 16 counterThenFloor 400 280 400 282 Hm3 Hk3 Ht3)
      as (_ & Hstop & _); [ lra | exact Hstop ].
Defined.

End OrdersInFlight.
